(** * OCR string validation tool: the validation engine and the CSV loader

    A shallow embedding of [src/models.py], [src/exceptions.py],
    [src/validation_engine.py], of [CSVDataLoader.load_test_protocol] and
    [CSVDataLoader.load_coordinates] from [src/data_loaders.py], of the
    matchers of [src/matchers.py] and of the summary of
    [src/reporters.py], with the properties the specification states
    about them.

    Conventions.
    - Python [float] values (confidences, times, rates) are idealised as
      exact rationals [Q]; [min] and comparisons are exact on both, sums,
      products and quotients are the rounding-free ones.  On doubles
      the code's [passed / n * 100] and [sum(xs) / len(xs)] are rounded
      at each operation, so the theorems about the summary state only
      counts, bounds and agreements, which rounding keeps.
    - Python built-ins and third-party calls whose behaviour the engine
      does not decide ([time.time], [Path.exists], pathlib's [/], [repr],
      [Image.open], [Image.crop], [int], [str.strip], [csv.DictReader])
      are oracles collected in a [Platform] record, or section variables.
    - The injected collaborators (text extractor, string comparator, data
      loader, observers) are fields of the engine object; each call may
      return or raise.
    - Effects are explicit: an [EngineState] carries the three dataset
      caches together with the history of calls made so far. *)

From Stdlib Require Import QArith Qminmax ZArith List String Ascii Lia.
From stdpp Require Import gmap strings list.

Local Open Scope Z_scope.

(** ** exceptions.py *)

Inductive ExcClass :=
  | Exception_        (* any built-in or third-party exception class not listed *)
  | AttributeError
  | ValueError
  | FileNotFoundError
  | ValidationError
  | OCRError
  | ConfigurationError
  | DataLoadError
  | AnnotationError
  | ImageProcessingError
  | MatchingError.

(** An exception object: its class and [str(e)].  All classes of
    exceptions.py pass [message] alone to [Exception.__init__], so their
    [str] is the message. *)
Record exn := Exc { exc_class : ExcClass; exc_str : string }.

Definition is_FileNotFoundError (e : exn) : bool :=
  match exc_class e with FileNotFoundError => true | _ => false end.

(** ** models.py *)

Inductive MatchResult := PASS | FAIL | ERROR | MISSING_IMAGE | MISSING_COORDINATES.

Record Coordinate := mkCoordinate { left : Z; top : Z; right : Z; bottom : Z }.

Definition width (c : Coordinate) : Z := right c - left c.
Definition height (c : Coordinate) : Z := bottom c - top c.
Definition area (c : Coordinate) : Z := width c * height c.
Definition to_tuple (c : Coordinate) : Z * Z * Z * Z :=
  (left c, top c, right c, bottom c).

Record TestStep := mkTestStep {
  step_id : string;
  screen_id : string;
  expected_string_id : string
}.

Definition coordinate_key (s : TestStep) : string * string * string :=
  (step_id s, screen_id s, expected_string_id s).

Record ValidationResult := mkValidationResult {
  step : TestStep;
  expected_text : string;
  ocr_output : string;
  match_result : MatchResult;
  confidence_score : option Q;
  processing_time_ms : option Q;
  error_message : option string
}.

Definition is_successful (r : ValidationResult) : bool :=
  match match_result r with PASS => true | _ => false end.

Record OCRConfig := mkOCRConfig {
  ocr_language : string;
  ocr_config_str : string;
  preprocessing_enabled : bool;
  dpi : Z
}.

Record ValidationConfig := mkValidationConfig {
  data_dir : string;
  output_dir : string;
  language : string;
  tesseract_config : string;
  fuzzy_matching_threshold : Q;
  enable_preprocessing : bool;
  log_level : string
}.

(** ** Python string built-ins used by the engine *)

(** ['-' in s] for a one-character needle. *)
Fixpoint str_contains (c : ascii) (s : string) : bool :=
  match s with
  | EmptyString => false
  | String a s' => if Ascii.eqb a c then true else str_contains c s'
  end.

(** [s.split(c)] for a one-character separator: never the empty list. *)
Fixpoint str_split (c : ascii) (s : string) : list string :=
  match s with
  | EmptyString => [EmptyString]
  | String a s' =>
      if Ascii.eqb a c then EmptyString :: str_split c s'
      else match str_split c s' with
           | [] => [String a EmptyString]
           | p :: ps => String a p :: ps
           end
  end.

(** [l[0]] on the result of [split], which is never empty. *)
Definition first_part (l : list string) : string :=
  match l with [] => EmptyString | p :: _ => p end.

(** [x or d] on strings: the empty string is falsy. *)
Definition str_or (x d : string) : string :=
  match x with EmptyString => d | _ => x end.

(** [not s] on strings. *)
Definition str_falsy (s : string) : bool :=
  match s with EmptyString => true | _ => false end.

Definition hyphen : ascii := "-"%char.

(** Python's [min(a, b)]: the first argument unless the second is
    strictly smaller. *)
Definition py_min (a b : Q) : Q :=
  match Qcompare b a with Lt => b | _ => a end.

(** ** The platform: what the interpreter, the file system and PIL answer *)

(** A PIL image handle: the file it was opened from and the box it was
    cropped to, if any.  Pixel contents stay abstract; the extractor is
    a function of the handle. *)
Record Image := mkImage { img_source : string; img_box : option (Z * Z * Z * Z) }.

Record Platform := mkPlatform {
  clock : nat -> Q;                           (* the n-th reading of time.time() *)
  path_exists : string -> exn + bool;         (* Path.exists(): it returns or raises *)
  path_join : string -> string -> string;     (* str(Path(a) / b) *)
  repr_str : string -> string;                (* repr(s) of a str *)
  image_open : string -> option exn;          (* Image.open: None when it returns *)
  image_crop : string -> Z * Z * Z * Z -> option exn  (* img.crop: None when it returns *)
}.

(** ** interfaces.py: the injected collaborators *)

Record DataLoader := mkDataLoader {
  load_test_protocol : string -> exn + list TestStep;
  load_expected_strings : string -> exn + gmap string string;
  load_coordinates : string -> exn + gmap (string * string * string) Coordinate
}.

(** Each hook returns [None] when it returns and [Some e] when it raises. *)
Record ValidationObserver := mkObserver {
  on_validation_start : nat -> option exn;
  on_step_complete : ValidationResult -> option exn;
  on_validation_complete : list ValidationResult -> option exn;
  on_error : exn -> option TestStep -> option exn
}.

Record ValidationEngine := mkEngine {
  config : ValidationConfig;
  ocr_engine : Image -> OCRConfig -> exn + (string * Q);  (* extract_text_with_confidence *)
  string_matcher : string -> string -> exn + (bool * Q);  (* match *)
  data_loader : DataLoader;
  _observers : list ValidationObserver
}.

(** ** The mutable part of the engine and the history of its calls *)

Inductive Notification :=
  | NValidationStart (total_steps : nat)
  | NStepComplete (r : ValidationResult)
  | NValidationComplete (rs : list ValidationResult)
  | NError (e : exn) (s : option TestStep).

Inductive LogLevel := INFO | WARNING | LOG_ERROR.

Record EngineState := mkState {
  _test_steps : option (list TestStep);
  _expected_strings : option (gmap string string);
  _coordinates : option (gmap (string * string * string) Coordinate);
  time_reads : nat;                         (* calls of time.time() so far *)
  image_opens : list string;                (* paths given to Image.open *)
  ocr_calls : list (Image * OCRConfig);     (* calls received by the extractor *)
  match_calls : list (string * string);     (* calls received by the comparator *)
  notifications : list (nat * Notification);(* (observer index, hook call) *)
  log : list (LogLevel * string)
}.

Definition initial_state : EngineState :=
  mkState None None None 0 [] [] [] [] [].

(** ** A state-and-exception monad for the engine's methods *)

Definition M (A : Type) : Type := EngineState -> (exn + A) * EngineState.

Definition ret {A} (a : A) : M A := fun s => (inr a, s).

Definition raise {A} (e : exn) : M A := fun s => (inl e, s).

Definition bind {A B} (m : M A) (k : A -> M B) : M B :=
  fun s => match m s with
           | (inl e, s') => (inl e, s')
           | (inr a, s') => k a s'
           end.

(** [try: m  except Exception as e: h e] *)
Definition try_except {A} (m : M A) (h : exn -> M A) : M A :=
  fun s => match m s with
           | (inl e, s') => h e s'
           | (inr a, s') => (inr a, s')
           end.

(** A call of the platform or of a collaborator that returns or raises. *)
Definition of_sum {A} (r : exn + A) : M A := fun s => (r, s).

Definition modify (f : EngineState -> EngineState) : M unit :=
  fun s => (inr tt, f s).

Definition gets {A} (f : EngineState -> A) : M A := fun s => (inr (f s), s).

(** A computation that cannot raise, run inside [M]. *)
Definition lift {A} (m : EngineState -> A * EngineState) : M A :=
  fun s => let (a, s') := m s in (inr a, s').

Declare Scope engine_scope.
Delimit Scope engine_scope with engine.
Notation "x <- m ;; k" := (bind m (fun x => k))
  (at level 100, m at next level, right associativity) : engine_scope.
Notation "m ;;; k" := (bind m (fun _ => k))
  (at level 100, right associativity) : engine_scope.

(** ** Updates of the engine state *)

Definition set_caches (ts : option (list TestStep)) (es : option (gmap string string))
    (cs : option (gmap (string * string * string) Coordinate)) (s : EngineState) : EngineState :=
  mkState ts es cs (time_reads s) (image_opens s) (ocr_calls s) (match_calls s)
          (notifications s) (log s).

Definition set_test_steps (ts : option (list TestStep)) (s : EngineState) : EngineState :=
  set_caches ts (_expected_strings s) (_coordinates s) s.

Definition set_expected_strings (es : option (gmap string string)) (s : EngineState) : EngineState :=
  set_caches (_test_steps s) es (_coordinates s) s.

Definition set_coordinates (cs : option (gmap (string * string * string) Coordinate))
    (s : EngineState) : EngineState :=
  set_caches (_test_steps s) (_expected_strings s) cs s.

Definition tick (s : EngineState) : EngineState :=
  mkState (_test_steps s) (_expected_strings s) (_coordinates s) (S (time_reads s))
          (image_opens s) (ocr_calls s) (match_calls s) (notifications s) (log s).

Definition record_open (p : string) (s : EngineState) : EngineState :=
  mkState (_test_steps s) (_expected_strings s) (_coordinates s) (time_reads s)
          (image_opens s ++ [p]) (ocr_calls s) (match_calls s) (notifications s) (log s).

Definition record_ocr (c : Image * OCRConfig) (s : EngineState) : EngineState :=
  mkState (_test_steps s) (_expected_strings s) (_coordinates s) (time_reads s)
          (image_opens s) (ocr_calls s ++ [c]) (match_calls s) (notifications s) (log s).

Definition record_match (c : string * string) (s : EngineState) : EngineState :=
  mkState (_test_steps s) (_expected_strings s) (_coordinates s) (time_reads s)
          (image_opens s) (ocr_calls s) (match_calls s ++ [c]) (notifications s) (log s).

Definition record_notification (n : nat * Notification) (s : EngineState) : EngineState :=
  mkState (_test_steps s) (_expected_strings s) (_coordinates s) (time_reads s)
          (image_opens s) (ocr_calls s) (match_calls s) (notifications s ++ [n]) (log s).

Definition logger (lvl : LogLevel) (msg : string) (s : EngineState) : EngineState :=
  mkState (_test_steps s) (_expected_strings s) (_coordinates s) (time_reads s)
          (image_opens s) (ocr_calls s) (match_calls s) (notifications s)
          (log s ++ [(lvl, msg)]).

(** A platform call that returns nothing or raises. *)
Definition of_option_exn (r : option exn) : M unit :=
  fun s => match r with Some e => (inl e, s) | None => (inr tt, s) end.

(** ** validation_engine.py *)

Section Engine.

Variable P : Platform.
Variable self : ValidationEngine.

Local Open Scope engine_scope.

(** *** The path properties of [ValidationConfig] *)

Definition protocol_file (c : ValidationConfig) : string :=
  path_join P (data_dir c) "test_protocol.csv".

Definition string_map_file (c : ValidationConfig) : string :=
  path_join P (path_join P (data_dir c) "expected_strings") (language c +:+ ".json").

Definition screenshot_dir (c : ValidationConfig) : string :=
  path_join P (data_dir c) "screenshots".

Definition coordinate_file (c : ValidationConfig) : string :=
  path_join P (data_dir c) "string_coordinates.csv".

(** *** Observer notification: every hook call is guarded by
    [try ... except Exception], so a raising observer is logged and
    the next one is still called. *)

Fixpoint notify_from (i : nat) (obs : list ValidationObserver)
    (hook : ValidationObserver -> option exn) (n : Notification)
    (s : EngineState) : EngineState :=
  match obs with
  | [] => s
  | o :: rest =>
      let s1 := record_notification (i, n) s in
      let s2 := match hook o with
                | None => s1
                | Some e => logger LOG_ERROR ("Error in observer notification: " +:+ exc_str e) s1
                end in
      notify_from (S i) rest hook n s2
  end.

Definition _notify_validation_start (total_steps : nat) : EngineState -> EngineState :=
  notify_from 0 (_observers self) (fun o => on_validation_start o total_steps)
              (NValidationStart total_steps).

Definition _notify_step_complete (result : ValidationResult) : EngineState -> EngineState :=
  notify_from 0 (_observers self) (fun o => on_step_complete o result)
              (NStepComplete result).

Definition _notify_validation_complete (results : list ValidationResult)
    : EngineState -> EngineState :=
  notify_from 0 (_observers self) (fun o => on_validation_complete o results)
              (NValidationComplete results).

Definition _notify_error (error : exn) (st : option TestStep) : EngineState -> EngineState :=
  notify_from 0 (_observers self) (fun o => on_error o error st) (NError error st).

(** *** [time.time()] *)

Definition time_time : M Q :=
  fun s => (inr (clock P (time_reads s)), tick s).

(** *** [_extract_text_from_region] *)

(** The [OCRConfig] built for one extraction (lines 317-321). *)
Definition make_ocr_config (c : ValidationConfig) : OCRConfig :=
  mkOCRConfig
    (if str_contains hyphen (language c)
     then first_part (str_split hyphen (language c))
     else "eng")
    (str_or (tesseract_config c) "--psm 8")
    (enable_preprocessing c)
    300.

Definition extract_body (image_path : string) (coordinate : Coordinate) : M (string * Q) :=
  modify (record_open image_path) ;;;
  of_option_exn (image_open P image_path) ;;;
  of_option_exn (image_crop P image_path (to_tuple coordinate)) ;;;
  let cropped_img := mkImage image_path (Some (to_tuple coordinate)) in
  let ocr_config := make_ocr_config (config self) in
  modify (record_ocr (cropped_img, ocr_config)) ;;;
  of_sum (ocr_engine self cropped_img ocr_config).

Definition _extract_text_from_region (image_path : string) (coordinate : Coordinate)
    : M (string * Q) :=
  try_except (extract_body image_path coordinate)
    (fun e =>
       if is_FileNotFoundError e
       then raise (Exc ImageProcessingError ("Image file not found: " +:+ image_path))
       else raise (Exc OCRError ("Failed to extract text from region: " +:+ exc_str e))).

(** *** [_validate_step] *)

Definition image_path_of (st : TestStep) : string :=
  path_join P (screenshot_dir (config self)) (screen_id st +:+ ".png").

(** [str(step.coordinate_key)]: the repr of a 3-tuple of strings. *)
Definition str_key (k : string * string * string) : string :=
  let '(a, b, c) := k in
  "(" +:+ repr_str P a +:+ ", " +:+ repr_str P b +:+ ", " +:+ repr_str P c +:+ ")".

(** [self._expected_strings.get(id, "")]; the attribute is [None]
    outside [_load_data], where [.get] raises [AttributeError]. *)
Definition get_expected_text (st : TestStep) : M string :=
  es <- gets _expected_strings ;;
  match es with
  | None => raise (Exc AttributeError "'NoneType' object has no attribute 'get'")
  | Some m => ret (default "" (m !! expected_string_id st))
  end.

(** [self._coordinates.get(step.coordinate_key)] *)
Definition get_coordinate (st : TestStep) : M (option Coordinate) :=
  cs <- gets _coordinates ;;
  match cs with
  | None => raise (Exc AttributeError "'NoneType' object has no attribute 'get'")
  | Some m => ret (m !! coordinate_key st)
  end.

(** Lines 238-281: the part of the [try] block that runs with
    [expected_text] bound to a non-empty string. *)
Definition validate_with_text (st : TestStep) (start_time : Q) (expected_text : string)
    : M ValidationResult :=
  let image_path := image_path_of st in
  image_exists <- of_sum (path_exists P image_path) ;;
  if negb image_exists then
    ret (mkValidationResult st expected_text "" MISSING_IMAGE None None
           (Some ("Image not found: " +:+ image_path)))
  else
    coordinate <- get_coordinate st ;;
    match coordinate with
    | None =>
        ret (mkValidationResult st expected_text "" MISSING_COORDINATES None None
               (Some ("Coordinates not found for: " +:+ str_key (coordinate_key st))))
    | Some coordinate =>
        r <- _extract_text_from_region image_path coordinate ;;
        let '(ocr_output, ocr_confidence) := r in
        modify (record_match (expected_text, ocr_output)) ;;;
        m <- of_sum (string_matcher self expected_text ocr_output) ;;
        let '(is_match, match_confidence) := m in
        let match_result := if is_match then PASS else FAIL in
        now <- time_time ;;
        let processing_time := ((now - start_time) * 1000)%Q in
        ret (mkValidationResult st expected_text ocr_output match_result
               (Some (py_min ocr_confidence match_confidence))
               (Some processing_time) None)
    end.

(** Lines 226-281: the whole [try] block. *)
Definition validate_after_lookup (st : TestStep) (start_time : Q) (expected_text : string)
    : M ValidationResult :=
  if str_falsy expected_text then
    ret (mkValidationResult st "" "" ERROR None None
           (Some ("Expected string not found: " +:+ expected_string_id st)))
  else validate_with_text st start_time expected_text.

(** Lines 283-294: the [except Exception] handler.  [bound] is the value
    of [expected_text] when the name is in [locals()]. *)
Definition step_handler (st : TestStep) (start_time : Q) (bound : option string) (e : exn)
    : EngineState -> ValidationResult * EngineState :=
  fun s =>
    let now := clock P (time_reads s) in
    let s1 := tick s in
    let processing_time := ((now - start_time) * 1000)%Q in
    let s2 := logger LOG_ERROR
                ("Error validating step " +:+ step_id st +:+ ": " +:+ exc_str e) s1 in
    (mkValidationResult st (default "" bound) "" ERROR None
       (Some processing_time) (Some (exc_str e)), s2).

Definition _validate_step (st : TestStep) : EngineState -> ValidationResult * EngineState :=
  fun s =>
    let start_time := clock P (time_reads s) in
    let s0 := tick s in
    match get_expected_text st s0 with
    | (inl e, s1) => step_handler st start_time None e s1
    | (inr expected_text, s1) =>
        match validate_after_lookup st start_time expected_text s1 with
        | (inl e, s2) => step_handler st start_time (Some expected_text) e s2
        | (inr result, s2) => (result, s2)
        end
    end.

(** *** [_load_data]: the context manager around every public entry point *)

(** Lines 122-139: the three loads, in this order, each cached as soon
    as it returns. *)
Definition load_datasets : M unit :=
  modify (logger INFO "Loading validation data...") ;;;
  ts <- of_sum (load_test_protocol (data_loader self) (protocol_file (config self))) ;;
  modify (set_test_steps (Some ts)) ;;;
  es <- of_sum (load_expected_strings (data_loader self) (string_map_file (config self))) ;;
  modify (set_expected_strings (Some es)) ;;;
  cs <- of_sum (load_coordinates (data_loader self) (coordinate_file (config self))) ;;
  modify (set_coordinates (Some cs)) ;;;
  modify (logger INFO "Data loading completed successfully").

(** [with self._load_data(): body].  An exception of the loads or of the
    body reaches the generator's [except Exception] clause and leaves as
    a [ValidationError]; the [finally] clause clears the caches on every
    exit. *)
Definition _load_data {A} (body : M A) : M A :=
  fun s =>
    match (load_datasets ;;; body) s with
    | (inl e, s1) =>
        let s2 := logger LOG_ERROR ("Failed to load validation data: " +:+ exc_str e) s1 in
        (inl (Exc ValidationError ("Data loading failed: " +:+ exc_str e)),
         set_caches None None None s2)
    | (inr a, s1) => (inr a, set_caches None None None s1)
    end.

(** *** [validate_all] *)

(** Lines 180-186. *)
Definition error_result (st : TestStep) (e : exn) : ValidationResult :=
  mkValidationResult st "" "" ERROR None None (Some (exc_str e)).

(** One iteration of the [for] loop (lines 170-188); [results] is the
    list before the iteration, the value is the list after it.
    [_validate_step] catches every exception itself and the notification
    helpers swallow those of the observers, so the handler of this [try]
    is kept as the source has it although nothing here reaches it. *)
Definition validate_one (st : TestStep) (results : list ValidationResult)
    : M (list ValidationResult) :=
  try_except
    (result <- lift (_validate_step st) ;;
     modify (_notify_step_complete result) ;;;
     ret (results ++ [result]))
    (fun e =>
       modify (logger LOG_ERROR
                 ("Error validating step " +:+ step_id st +:+ ": " +:+ exc_str e)) ;;;
       modify (_notify_error e (Some st)) ;;;
       modify (_notify_step_complete (error_result st e)) ;;;
       ret (results ++ [error_result st e])).

Fixpoint validate_loop (steps : list TestStep) (results : list ValidationResult)
    : M (list ValidationResult) :=
  match steps with
  | [] => ret results
  | st :: rest =>
      results' <- validate_one st results ;;
      validate_loop rest results'
  end.

Definition validate_all : M (list ValidationResult) :=
  _load_data
    (ts <- gets _test_steps ;;
     match ts with
     | None | Some [] => raise (Exc ValidationError "No test steps loaded")
     | Some steps =>
         modify (_notify_validation_start (length steps)) ;;;
         try_except
           (results <- validate_loop steps [] ;;
            modify (_notify_validation_complete results) ;;;
            ret results)
           (fun e =>
              modify (logger LOG_ERROR ("Validation process failed: " +:+ exc_str e)) ;;;
              modify (_notify_error e None) ;;;
              raise (Exc ValidationError ("Validation process failed: " +:+ exc_str e)))
     end).

(** *** [validate_step], the single-step entry point *)

Definition validate_step (st : TestStep) : M ValidationResult :=
  _load_data (lift (_validate_step st)).

End Engine.

(** *** [get_validation_summary]

    The counts are the code's.  The rate and the two averages are the
    code's expressions read over [Q]: they are the values the doubles of
    the code approximate, not those doubles. *)

Record ValidationSummary := mkSummary {
  total_steps : nat;
  passed : nat;
  failed : nat;
  errors : nat;
  missing_images : nat;
  missing_coordinates : nat;
  pass_rate : Q;
  average_confidence : Q;
  average_processing_time_ms : Q
}.

Definition MatchResult_eqb (a b : MatchResult) : bool :=
  match a, b with
  | PASS, PASS | FAIL, FAIL | ERROR, ERROR
  | MISSING_IMAGE, MISSING_IMAGE | MISSING_COORDINATES, MISSING_COORDINATES => true
  | _, _ => false
  end.

(** [sum(1 for r in results if r.match_result == m)] *)
Definition count_result (m : MatchResult) (results : list ValidationResult) : nat :=
  length (List.filter (fun r => MatchResult_eqb (match_result r) m) results).

(** [sum(xs)] on floats: from 0, left to right. *)
Definition py_sum (xs : list Q) : Q := fold_left Qplus xs 0%Q.

(** [len(l)] as a number to divide by. *)
Definition py_len {A} (l : list A) : Q := inject_Z (Z.of_nat (length l)).

Definition is_not_None {A} (o : option A) : bool :=
  match o with Some _ => true | None => false end.

(** The attribute of a result that passed the [is not None] filter. *)
Definition the {A} (d : A) (o : option A) : A :=
  match o with Some x => x | None => d end.

Definition get_validation_summary (results : list ValidationResult) : ValidationSummary :=
  match results with
  | [] => mkSummary 0 0 0 0 0 0 0%Q 0%Q 0%Q
  | _ :: _ =>
      let passed := count_result PASS results in
      let failed := count_result FAIL results in
      let errors := count_result ERROR results in
      let missing_images := count_result MISSING_IMAGE results in
      let missing_coordinates := count_result MISSING_COORDINATES results in
      let valid_results := List.filter (fun r => is_not_None (confidence_score r)) results in
      let avg_confidence :=
        match valid_results with
        | [] => 0%Q
        | _ :: _ => (py_sum (map (fun r => the 0%Q (confidence_score r)) valid_results)
                     / py_len valid_results)%Q
        end in
      let timed_results := List.filter (fun r => is_not_None (processing_time_ms r)) results in
      let avg_processing_time :=
        match timed_results with
        | [] => 0%Q
        | _ :: _ => (py_sum (map (fun r => the 0%Q (processing_time_ms r)) timed_results)
                     / py_len timed_results)%Q
        end in
      mkSummary (length results) passed failed errors missing_images missing_coordinates
        (inject_Z (Z.of_nat passed) / py_len results * 100)%Q
        avg_confidence avg_processing_time
  end.

(** ** data_loaders.py: [CSVDataLoader.load_coordinates] *)

Module CSVDataLoader.

(** What [csv.DictReader] yields for a file: the header (or [None] for
    an empty file) and one dict per record.  A record shorter than the
    header has [None] under the missing columns. *)
Record CsvFile := mkCsvFile {
  fieldnames : option (list string);
  rows : list (gmap string (option string))
}.

(** The records written by [logger], by message template. *)
Inductive LoadEvent :=
  | SkipMissingData (row_num : nat)              (* warning: "Skipping row n: missing required data" *)
  | InvalidValues (row_num : nat)                (* error: "Invalid coordinate values in row n: ..." *)
  | InvalidBounds (row_num : nat) (l t r b : Z)  (* error: "Invalid coordinate bounds in row n: ..." *)
  | NegativeCoordinates (row_num : nat) (l t r b : Z) (* error: "Negative coordinates in row n: ..." *)
  | DuplicateEntry (key : string * string * string)   (* warning: "Duplicate coordinate entry for key, using latest" *)
  | ErrorParsingRow (row_num : nat)              (* error: "Error parsing row n: ..." *)
  | Loaded (n : nat).                            (* info: "Loaded n coordinate mappings from path" *)

Definition level (ev : LoadEvent) : LogLevel :=
  match ev with
  | SkipMissingData _ | DuplicateEntry _ => WARNING
  | Loaded _ => INFO
  | _ => LOG_ERROR
  end.

Inductive RowOutcome :=
  | Skip (ev : LoadEvent)                                    (* [continue] *)
  | Entry (key : string * string * string) (c : Coordinate)  (* reaches line 198 *).

Definition required_columns : list string :=
  ["StepID"; "ScreenID"; "ExpectedStringID"; "Left"; "Top"; "Right"; "Bottom"].

Section Loader.

Variable int : string -> option Z.          (* int(s); None for ValueError *)
Variable strip : string -> string.          (* s.strip() *)
Variable repr_cols : list string -> string. (* repr of a set of column names *)
Variable read_csv : string -> option (exn + CsvFile).
  (* None: the path does not exist; inl: open or the reader raised *)

(** [row.get(col, '')]: the value may be [None]. *)
Definition row_get (row : gmap string (option string)) (col : string) : option string :=
  default (Some EmptyString) (row !! col).

(** [all(row.get(col, '').strip() for col in required_columns)]:
    [None] when [.strip()] is reached on a [None] value (AttributeError).
    Python walks the set in an order of its own; the order decides only
    which of two log records a skipped row leaves. *)
Fixpoint all_present (row : gmap string (option string)) (cols : list string) : option bool :=
  match cols with
  | [] => Some true
  | c :: cs =>
      match row_get row c with
      | None => None
      | Some v => if str_falsy (strip v) then Some false else all_present row cs
      end
  end.

(** [row[col]] where a string is needed: [None] for a missing key or a
    [None] value, which both end in the row's [except Exception]. *)
Definition row_item (row : gmap string (option string)) (col : string) : option string :=
  match row !! col with Some (Some v) => Some v | _ => None end.

(** Lines 161-202 up to the dictionary update. *)
Definition parse_row (row_num : nat) (row : gmap string (option string)) : RowOutcome :=
  match all_present row required_columns with
  | None => Skip (ErrorParsingRow row_num)
  | Some false => Skip (SkipMissingData row_num)
  | Some true =>
      match row_item row "Left", row_item row "Top",
            row_item row "Right", row_item row "Bottom" with
      | Some sl, Some st, Some sr, Some sb =>
          match int sl, int st, int sr, int sb with
          | Some left, Some top, Some right, Some bottom =>
              if (left >=? right) || (top >=? bottom)
              then Skip (InvalidBounds row_num left top right bottom)
              else if existsb (fun coord => coord <? 0) [left; top; right; bottom]
              then Skip (NegativeCoordinates row_num left top right bottom)
              else
                match row_item row "StepID", row_item row "ScreenID",
                      row_item row "ExpectedStringID" with
                | Some a, Some b, Some c =>
                    Entry (strip a, strip b, strip c) (mkCoordinate left top right bottom)
                | _, _, _ => Skip (ErrorParsingRow row_num)
                end
          | _, _, _, _ => Skip (InvalidValues row_num)
          end
      | _, _, _, _ => Skip (ErrorParsingRow row_num)
      end
  end.

(** The [for] loop over the reader, rows numbered from [row_num]. *)
Fixpoint load_rows (row_num : nat) (rs : list (gmap string (option string)))
    (coordinates : gmap (string * string * string) Coordinate) (events : list LoadEvent)
    : gmap (string * string * string) Coordinate * list LoadEvent :=
  match rs with
  | [] => (coordinates, events)
  | row :: rest =>
      match parse_row row_num row with
      | Skip ev => load_rows (S row_num) rest coordinates (events ++ [ev])
      | Entry key c =>
          let events' :=
            match coordinates !! key with
            | Some _ => events ++ [DuplicateEntry key]
            | None => events
            end in
          load_rows (S row_num) rest (<[key := c]> coordinates) events'
      end
  end.

(** [required_columns.issubset(reader.fieldnames or [])] *)
Definition has_required (f : CsvFile) : bool :=
  forallb (fun c => bool_decide (c ∈ default [] (fieldnames f))) required_columns.

Definition missing_cols (f : CsvFile) : list string :=
  List.filter (fun c => negb (bool_decide (c ∈ default [] (fieldnames f)))) required_columns.

(** [except DataLoadError: raise / except Exception as e: raise DataLoadError(...)] *)
Definition as_load_error (e : exn) : exn :=
  match exc_class e with
  | DataLoadError => e
  | _ => Exc DataLoadError ("Failed to load coordinates: " +:+ exc_str e)
  end.

Definition load_coordinates (file_path : string)
    : (exn + gmap (string * string * string) Coordinate) * list LoadEvent :=
  match read_csv file_path with
  | None => (inl (Exc DataLoadError ("Coordinates file not found: " +:+ file_path)), [])
  | Some (inl e) => (inl (as_load_error e), [])
  | Some (inr f) =>
      if negb (has_required f) then
        (inl (Exc DataLoadError
                ("Missing required columns in coordinates file: " +:+ repr_cols (missing_cols f))),
         [])
      else
        let '(coordinates, events) := load_rows 2 (rows f) ∅ [] in
        if bool_decide (coordinates = ∅) then
          (inl (Exc DataLoadError "No valid coordinates found in file"), events)
        else (inr coordinates, events ++ [Loaded (size coordinates)])
  end.

End Loader.

End CSVDataLoader.

(** ** The specification's vocabulary *)

(** The primary subtag of a locale tag: the text before its first
    hyphen, the whole tag when it has none ("en" from "en-US"). *)
Fixpoint primary_subtag (tag : string) : string :=
  match tag with
  | EmptyString => EmptyString
  | String a rest =>
      if Ascii.eqb a hyphen then EmptyString else String a (primary_subtag rest)
  end.

(** The arithmetic mean of a list of values, 0 for no value. *)
Definition mean (xs : list Q) : Q :=
  match xs with
  | [] => 0%Q
  | _ :: _ => (fold_right Qplus 0 xs / inject_Z (Z.of_nat (length xs)))%Q
  end.

(** The values of an optional attribute over the results that carry it. *)
Definition present {A} (f : ValidationResult -> option A) (rs : list ValidationResult)
    : list A :=
  omap f rs.

(** The three dataset caches of an engine state. *)
Definition caches (s : EngineState) :=
  (_test_steps s, _expected_strings s, _coordinates s).

Definition is_inr {A B} (x : A + B) : bool :=
  match x with inr _ => true | inl _ => false end.

(** All three loads of a run return. *)
Definition loads_succeed (P : Platform) (self : ValidationEngine) : bool :=
  is_inr (load_test_protocol (data_loader self) (protocol_file P (config self)))
  && is_inr (load_expected_strings (data_loader self) (string_map_file P (config self)))
  && is_inr (load_coordinates (data_loader self) (coordinate_file P (config self))).

(** The coordinate a table of rows gives a key when read top to bottom:
    that of the last valid row carrying the key. *)
Definition row_entry (int : string -> option Z) (strip : string -> string)
    (row : gmap string (option string)) : option (string * string * string * Coordinate) :=
  match CSVDataLoader.parse_row int strip 0 row with
  | CSVDataLoader.Entry k c => Some (k, c)
  | CSVDataLoader.Skip _ => None
  end.

(** Two states that differ at most in what observers and the logger
    received. *)
Definition only_reported (s s' : EngineState) : Prop :=
  caches s' = caches s /\ time_reads s' = time_reads s /\
  image_opens s' = image_opens s /\ ocr_calls s' = ocr_calls s /\
  match_calls s' = match_calls s.


(** ** A small data set: the specification's example scenario *)

Module Demo.

Definition platform : Platform :=
  mkPlatform
    (fun n => inject_Z (Z.of_nat n))
    (fun p => inr (String.eqb p "data/screenshots/ScreenA.png"))
    (fun a b => a +:+ "/" +:+ b)
    (fun s => "'" +:+ s +:+ "'")
    (fun _ => None)
    (fun _ _ => None).

Definition cfg (lang : string) : ValidationConfig :=
  mkValidationConfig "data" "output" lang "" (8 # 10) true "INFO".

Definition s1 : TestStep := mkTestStep "S1" "ScreenA" "greeting".
Definition s2 : TestStep := mkTestStep "S2" "ScreenB" "greeting".
Definition s3 : TestStep := mkTestStep "S3" "ScreenA" "farewell".
Definition s4 : TestStep := mkTestStep "S4" "ScreenA" "greeting".

Definition box : Coordinate := mkCoordinate 10 20 110 60.

Definition expected : gmap string string := {[ "greeting" := "Hello" ]}.

Definition coords : gmap (string * string * string) Coordinate :=
  <[ coordinate_key s2 := box ]> {[ coordinate_key s1 := box ]}.

Definition loader (steps : list TestStep) : DataLoader :=
  mkDataLoader (fun _ => inr steps) (fun _ => inr expected) (fun _ => inr coords).

(** The strings file is missing. *)
Definition failing_loader : DataLoader :=
  mkDataLoader (fun _ => inr [s1])
    (fun p => inl (Exc DataLoadError ("Expected strings file not found: " +:+ p)))
    (fun _ => inr coords).

Definition extractor : Image -> OCRConfig -> exn + (string * Q) :=
  fun _ _ => inr ("Hello", 95 # 100).


(** Exact, case-sensitive comparison. *)
Definition matcher : string -> string -> exn + (bool * Q) :=
  fun a b => inr (if String.eqb a b then (true, 1%Q) else (false, 0%Q)).

Definition quiet : ValidationObserver :=
  mkObserver (fun _ => None) (fun _ => None) (fun _ => None) (fun _ _ => None).

Definition noisy : ValidationObserver :=
  mkObserver (fun _ => Some (Exc Exception_ "observer failed"))
             (fun _ => Some (Exc Exception_ "observer failed"))
             (fun _ => None) (fun _ _ => None).

Definition engine (steps : list TestStep) : ValidationEngine :=
  mkEngine (cfg "en-US") extractor matcher (loader steps) [quiet; noisy].


Definition unloadable_engine : ValidationEngine :=
  mkEngine (cfg "en-US") extractor matcher failing_loader [quiet].

Definition french_engine : ValidationEngine :=
  mkEngine (cfg "fr") extractor matcher (loader [s1]) [].

(** A state inside [_load_data], after the three loads. *)
Definition loaded : EngineState :=
  set_caches (Some [s1; s2; s3; s4]) (Some expected) (Some coords) initial_state.

(** [int] and [strip] on the ASCII inputs of the example table. *)
Definition digit (a : ascii) : option Z :=
  let n := Z.of_nat (nat_of_ascii a) in
  if (48 <=? n) && (n <=? 57) then Some (n - 48) else None.

Fixpoint digits (acc : Z) (s : string) : option Z :=
  match s with
  | EmptyString => Some acc
  | String a rest =>
      match digit a with
      | Some d => digits (10 * acc + d) rest
      | None => None
      end
  end.

Definition int (s : string) : option Z :=
  match s with
  | EmptyString => None
  | String "-" (String a rest) => option_map Z.opp (digits 0 (String a rest))
  | _ => digits 0 s
  end.

Fixpoint lstrip (s : string) : string :=
  match s with
  | String " " rest => lstrip rest
  | _ => s
  end.

Fixpoint rstrip (s : string) : string :=
  match s with
  | EmptyString => EmptyString
  | String a rest =>
      match rstrip rest with
      | EmptyString => if Ascii.eqb a " " then EmptyString else String a EmptyString
      | r => String a r
      end
  end.

Definition strip (s : string) : string := rstrip (lstrip s).

Definition row (sid scr str l t r b : string) : gmap string (option string) :=
  list_to_map [("StepID", Some sid); ("ScreenID", Some scr); ("ExpectedStringID", Some str);
               ("Left", Some l); ("Top", Some t); ("Right", Some r); ("Bottom", Some b)].

Definition table : CSVDataLoader.CsvFile :=
  CSVDataLoader.mkCsvFile
    (Some ["StepID"; "ScreenID"; "ExpectedStringID"; "Left"; "Top"; "Right"; "Bottom"])
    [ row "S1" "ScreenA" "greeting" "10" "20" "110" "60";
      row "S2" "ScreenB" "greeting" "5" "5" "x" "9";
      row "S1" " ScreenA" "greeting" "30" "40" "130" "80";
      row "S9" "ScreenC" "title" "8" "8" "2" "9" ].

(** The same key on three valid rows, with three different boxes. *)
Definition triple : CSVDataLoader.CsvFile :=
  CSVDataLoader.mkCsvFile
    (Some ["StepID"; "ScreenID"; "ExpectedStringID"; "Left"; "Top"; "Right"; "Bottom"])
    [ row "S1" "ScreenA" "greeting" "10" "20" "110" "60";
      row "S1" "ScreenA" "greeting" "30" "40" "130" "80";
      row "S1" "ScreenA" "greeting" "50" "60" "150" "100" ].

Definition read_csv (p : string) : option (exn + CSVDataLoader.CsvFile) :=
  if String.eqb p "data/string_coordinates.csv" then Some (inr table)
  else if String.eqb p "data/triple.csv" then Some (inr triple)
  else None.

(** Three results: a pass, a missing image and a fail. *)
Definition results : list ValidationResult :=
  [ mkValidationResult s1 "Hello" "Hello" PASS (Some (95 # 100)) (Some 1000%Q) None;
    mkValidationResult s2 "Hello" "" MISSING_IMAGE None None
      (Some "Image not found: data/screenshots/ScreenB.png");
    mkValidationResult s4 "Hello" "Hallo" FAIL (Some (5 # 10)) (Some 3000%Q) None ].

Definition repr_cols (cols : list string) : string :=
  "{" +:+ String.concat ", " (map (fun c => "'" +:+ c +:+ "'") cols) +:+ "}".

End Demo.

(** ** data_loaders.py: [CSVDataLoader.load_test_protocol] *)

Module CSVProtocol.

Inductive LoadEvent :=
  | SkipMissingData (row_num : nat)   (* warning: "Skipping row n: missing required data" *)
  | ErrorParsingRow (row_num : nat)   (* error: "Error parsing row n: ..." *)
  | Loaded (n : nat)                  (* info: "Loaded n test steps from path" *).

Definition required_columns : list string := ["StepID"; "ScreenID"; "ExpectedStringID"].

Section Loader.

Variable strip : string -> string.          (* s.strip() *)
Variable repr_cols : list string -> string. (* repr of a set of column names *)
Variable read_csv : string -> option (exn + CSVDataLoader.CsvFile).

(** Lines 56-71: one row gives a step or is skipped with a log record. *)
Definition parse_row (row_num : nat) (row : gmap string (option string))
    : LoadEvent + TestStep :=
  match CSVDataLoader.all_present strip row required_columns with
  | None => inl (ErrorParsingRow row_num)
  | Some false => inl (SkipMissingData row_num)
  | Some true =>
      match CSVDataLoader.row_item row "StepID", CSVDataLoader.row_item row "ScreenID",
            CSVDataLoader.row_item row "ExpectedStringID" with
      | Some a, Some b, Some c => inr (mkTestStep (strip a) (strip b) (strip c))
      | _, _, _ => inl (ErrorParsingRow row_num)
      end
  end.

Fixpoint load_rows (row_num : nat) (rs : list (gmap string (option string)))
    (steps : list TestStep) (events : list LoadEvent) : list TestStep * list LoadEvent :=
  match rs with
  | [] => (steps, events)
  | row :: rest =>
      match parse_row row_num row with
      | inl ev => load_rows (S row_num) rest steps (events ++ [ev])
      | inr st => load_rows (S row_num) rest (steps ++ [st]) events
      end
  end.

Definition has_required (f : CSVDataLoader.CsvFile) : bool :=
  forallb (fun c => bool_decide (c ∈ default [] (CSVDataLoader.fieldnames f))) required_columns.

Definition missing_cols (f : CSVDataLoader.CsvFile) : list string :=
  List.filter (fun c => negb (bool_decide (c ∈ default [] (CSVDataLoader.fieldnames f))))
    required_columns.

Definition as_load_error (e : exn) : exn :=
  match exc_class e with
  | DataLoadError => e
  | _ => Exc DataLoadError ("Failed to load test protocol: " +:+ exc_str e)
  end.

Definition load_test_protocol (file_path : string)
    : (exn + list TestStep) * list LoadEvent :=
  match read_csv file_path with
  | None => (inl (Exc DataLoadError ("Protocol file not found: " +:+ file_path)), [])
  | Some (inl e) => (inl (as_load_error e), [])
  | Some (inr f) =>
      if negb (has_required f) then
        (inl (Exc DataLoadError
                ("Missing required columns in protocol file: " +:+ repr_cols (missing_cols f))),
         [])
      else
        let '(steps, events) := load_rows 2 (CSVDataLoader.rows f) [] [] in
        match steps with
        | [] => (inl (Exc DataLoadError "No valid test steps found in protocol file"), events)
        | _ :: _ => (inr steps, events ++ [Loaded (length steps)])
        end
  end.

End Loader.

End CSVProtocol.

(** ** models.py: [AnnotationData] *)

Record AnnotationData := mkAnnotationData {
  ann_step_id : string;
  ann_screen_id : string;
  ann_expected_string_id : string;
  ann_coordinate : Coordinate
}.

(** [to_csv_row]; [str_int] is [str] on integers. *)
Definition to_csv_row (str_int : Z -> string) (a : AnnotationData) : list string :=
  [ ann_step_id a; ann_screen_id a; ann_expected_string_id a;
    str_int (left (ann_coordinate a)); str_int (top (ann_coordinate a));
    str_int (right (ann_coordinate a)); str_int (bottom (ann_coordinate a)) ].

(** The header the annotation tool writes (annotation_tool.py, lines
    259-262). *)
Definition annotation_header : list string :=
  ["StepID"; "ScreenID"; "ExpectedStringID"; "Left"; "Top"; "Right"; "Bottom"].

(** The dict [csv.DictReader] yields for a record with as many fields as
    the header has names. *)
Definition dict_row (header fields : list string) : gmap string (option string) :=
  list_to_map (zip header (map Some fields)).

(** ** matchers.py *)

Module Matchers.

Definition StringMatcher : Type := string -> string -> exn + (bool * Q).

(** Python's [max(a, b)]: the first argument unless the second is
    strictly greater. *)
Definition py_max (a b : Q) : Q :=
  match Qcompare b a with Gt => b | _ => a end.

(** [min(xs)] and [max(xs)] on a sequence; [None] is the [ValueError]
    of an empty one. *)
Definition py_min_list (xs : list Q) : option Q :=
  match xs with
  | [] => None
  | x :: rest => Some (fold_left py_min rest x)
  end.

Definition py_max_list (xs : list Q) : option Q :=
  match xs with
  | [] => None
  | x :: rest => Some (fold_left py_max rest x)
  end.

(** [needle in hay] on strings. *)
Fixpoint is_prefix (p s : string) : bool :=
  match p, s with
  | EmptyString, _ => true
  | String a p', String b s' => Ascii.eqb a b && is_prefix p' s'
  | String _ _, EmptyString => false
  end.

Fixpoint is_substring (needle hay : string) : bool :=
  is_prefix needle hay ||
  match hay with
  | EmptyString => false
  | String _ hay' => is_substring needle hay'
  end.

Definition str_len (s : string) : Q := inject_Z (Z.of_nat (String.length s)).

Section Strategies.

Variable strip : string -> string.            (* s.strip() *)
Variable lower : string -> string.            (* s.lower() *)
Variable ratio : string -> string -> Q.       (* SequenceMatcher(None, a, b).ratio() *)
Variable collapse_ws : string -> string.      (* re.sub(r'\s+', ' ', s) *)
Variable drop_punct : string -> string.       (* re.sub(r'[^\w\s]', '', s) *)

(** [expected.strip()], lowered unless the matcher is case sensitive. *)
Definition clean (case_sensitive : bool) (s : string) : string :=
  if case_sensitive then strip s else lower (strip s).

(** [ExactMatcher(case_sensitive).match] *)
Definition ExactMatcher (case_sensitive : bool) : StringMatcher :=
  fun expected actual =>
    let is_match := String.eqb (clean case_sensitive expected) (clean case_sensitive actual) in
    inr (is_match, if is_match then 1%Q else 0%Q).

(** The threshold test of the [FuzzyMatcher] and [NormalizedMatcher]
    constructors. *)
Definition threshold_ok (threshold : Q) : bool :=
  Qle_bool 0 threshold && Qle_bool threshold 1.

Definition fuzzy_match (threshold : Q) (case_sensitive : bool) : StringMatcher :=
  fun expected actual =>
    let similarity := ratio (clean case_sensitive expected) (clean case_sensitive actual) in
    inr (Qle_bool threshold similarity, similarity).

(** [FuzzyMatcher(threshold, case_sensitive)]: the constructor raises
    [ValueError] for a threshold outside [0, 1]. *)
Definition FuzzyMatcher (threshold : Q) (case_sensitive : bool) : exn + StringMatcher :=
  if threshold_ok threshold then inr (fuzzy_match threshold case_sensitive)
  else inl (Exc ValueError "Threshold must be between 0.0 and 1.0").

(** [NormalizedMatcher._normalize_text] *)
Definition _normalize_text (normalize_whitespace normalize_punctuation case_sensitive : bool)
    (text : string) : string :=
  let normalized := strip text in
  let normalized := if case_sensitive then normalized else lower normalized in
  let normalized := if normalize_whitespace then collapse_ws normalized else normalized in
  let normalized := if normalize_punctuation then drop_punct normalized else normalized in
  strip normalized.

Definition normalized_match (threshold : Q)
    (normalize_whitespace normalize_punctuation case_sensitive : bool) : StringMatcher :=
  fun expected actual =>
    let similarity :=
      ratio (_normalize_text normalize_whitespace normalize_punctuation case_sensitive expected)
            (_normalize_text normalize_whitespace normalize_punctuation case_sensitive actual) in
    inr (Qle_bool threshold similarity, similarity).

Definition NormalizedMatcher (threshold : Q)
    (normalize_whitespace normalize_punctuation case_sensitive : bool) : exn + StringMatcher :=
  if threshold_ok threshold
  then inr (normalized_match threshold normalize_whitespace normalize_punctuation case_sensitive)
  else inl (Exc ValueError "Threshold must be between 0.0 and 1.0").

(** [ContainsMatcher(case_sensitive).match] *)
Definition ContainsMatcher (case_sensitive : bool) : StringMatcher :=
  fun expected actual =>
    let expected_clean := clean case_sensitive expected in
    let actual_clean := clean case_sensitive actual in
    let is_match := is_substring expected_clean actual_clean in
    let confidence :=
      if is_match && negb (str_falsy expected_clean) then
        py_min (if str_falsy actual_clean then 0%Q
                else (str_len expected_clean / str_len actual_clean)%Q) 1%Q
      else 0%Q in
    inr (is_match, confidence).

(** The loop of [CompositeMatcher.match] (lines 303-305): the children
    are called in order, the first exception ends the loop. *)
Fixpoint collect_results (matchers : list StringMatcher) (expected actual : string)
    : exn + list (bool * Q) :=
  match matchers with
  | [] => inr []
  | m :: rest =>
      match m expected actual with
      | inl e => inl e
      | inr r =>
          match collect_results rest expected actual with
          | inl e => inl e
          | inr rs => inr (r :: rs)
          end
      end
  end.

(** Lines 307-319. *)
Definition combine (require_all : bool) (results : list (bool * Q)) : exn + (bool * Q) :=
  if require_all then
    let overall_match := forallb fst results in
    if overall_match then
      match py_min_list (map snd results) with
      | Some c => inr (overall_match, c)
      | None => inl (Exc ValueError "min() arg is an empty sequence")
      end
    else inr (overall_match, 0%Q)
  else
    let overall_match := existsb fst results in
    let passing_confidences := map snd (List.filter fst results) in
    match py_max_list passing_confidences with
    | Some c => inr (overall_match, c)
    | None => inr (overall_match, 0%Q)
    end.

(** [CompositeMatcher.match] on an object holding [matchers] and
    [require_all]. *)
Definition composite_match (matchers : list StringMatcher) (require_all : bool)
    : StringMatcher :=
  fun expected actual =>
    match collect_results matchers expected actual with
    | inl e => inl (Exc MatchingError ("Composite matching failed: " +:+ exc_str e))
    | inr results =>
        match combine require_all results with
        | inl e => inl (Exc MatchingError ("Composite matching failed: " +:+ exc_str e))
        | inr r => inr r
        end
    end.

(** [CompositeMatcher(matchers, require_all)] *)
Definition CompositeMatcher (matchers : list StringMatcher) (require_all : bool)
    : exn + StringMatcher :=
  match matchers with
  | [] => inl (Exc ValueError "At least one matcher must be provided")
  | _ :: _ => inr (composite_match matchers require_all)
  end.

(** [StringMatcherFactory.create_default_matcher(fuzzy_threshold)] *)
Definition create_default_matcher (fuzzy_threshold : Q) : exn + StringMatcher :=
  match NormalizedMatcher (9 # 10) true true false with
  | inl e => inl e
  | inr normalized =>
      match FuzzyMatcher fuzzy_threshold false with
      | inl e => inl e
      | inr fuzzy => CompositeMatcher [ExactMatcher false; normalized; fuzzy] false
      end
  end.

End Strategies.

End Matchers.

(** ** reporters.py: [_calculate_summary_stats] *)

Module Reporters.

(** [MatchResult.value] *)
Definition value (m : MatchResult) : string :=
  match m with
  | PASS => "PASS"
  | FAIL => "FAIL"
  | ERROR => "ERROR"
  | MISSING_IMAGE => "MISSING_IMAGE"
  | MISSING_COORDINATES => "MISSING_COORDINATES"
  end.

(** [for result_type in MatchResult]: the members in definition order. *)
Definition members : list MatchResult :=
  [PASS; FAIL; ERROR; MISSING_IMAGE; MISSING_COORDINATES].

Record ReportSummary := mkReportSummary {
  r_total_steps : nat;
  r_passed : nat;
  r_failed : nat;
  r_errors : nat;
  r_pass_rate : Q;
  r_average_confidence : Q;
  r_average_processing_time_ms : Q;
  results_by_type : list (string * nat)   (* a dict, in insertion order *)
}.

(** [d.get(key, 0)] on a dict kept as an association list with unique keys. *)
Fixpoint dict_get (d : list (string * nat)) (key : string) : nat :=
  match d with
  | [] => 0%nat
  | (k, v) :: rest => if String.eqb k key then v else dict_get rest key
  end.

(** [sum(...)] on integers. *)
Definition sum_nat (xs : list nat) : nat := fold_left Nat.add xs 0%nat.

Definition _calculate_summary_stats (results : list ValidationResult) : ReportSummary :=
  match results with
  | [] => mkReportSummary 0 0 0 0 0%Q 0%Q 0%Q []
  | _ :: _ =>
      let result_counts := map (fun rt => (value rt, count_result rt results)) members in
      let passed := dict_get result_counts (value PASS) in
      let failed := dict_get result_counts (value FAIL) in
      let errors :=
        sum_nat (map snd (List.filter
                            (fun kv => negb (String.eqb (fst kv) (value PASS)
                                             || String.eqb (fst kv) (value FAIL)))
                            result_counts)) in
      let valid_confidence_results :=
        List.filter (fun r => is_not_None (confidence_score r)) results in
      let avg_confidence :=
        match valid_confidence_results with
        | [] => 0%Q
        | _ :: _ =>
            (py_sum (map (fun r => the 0%Q (confidence_score r)) valid_confidence_results)
             / py_len valid_confidence_results)%Q
        end in
      let timed_results := List.filter (fun r => is_not_None (processing_time_ms r)) results in
      let avg_processing_time :=
        match timed_results with
        | [] => 0%Q
        | _ :: _ => (py_sum (map (fun r => the 0%Q (processing_time_ms r)) timed_results)
                     / py_len timed_results)%Q
        end in
      mkReportSummary (length results) passed failed errors
        (inject_Z (Z.of_nat passed) / py_len results * 100)%Q
        avg_confidence avg_processing_time result_counts
  end.

End Reporters.

(** ** More of the specification's vocabulary *)

(** The calls one notification makes: one per observer, in registration
    order. *)
Definition broadcast (self : ValidationEngine) (n : Notification) : list (nat * Notification) :=
  imap (fun i _ => (i, n)) (_observers self).

(** The engine state right after the three loads of [_load_data]. *)
Definition after_loads (ts : list TestStep) (es : gmap string string)
    (cs : gmap (string * string * string) Coordinate) (s : EngineState) : EngineState :=
  logger INFO "Data loading completed successfully"
    (set_coordinates (Some cs)
       (set_expected_strings (Some es)
          (set_test_steps (Some ts) (logger INFO "Loading validation data..." s)))).

(** The state in which the loop of [validate_all] starts. *)
Definition run_start (self : ValidationEngine) (ts : list TestStep)
    (es : gmap string string) (cs : gmap (string * string * string) Coordinate)
    (s : EngineState) : EngineState :=
  _notify_validation_start self (length ts) (after_loads ts es cs s).

(** The states in which the steps of a run start: the first step where
    the loop starts, each later one where the step before it left off,
    its result notified. *)
Fixpoint step_states (P : Platform) (self : ValidationEngine) (steps : list TestStep)
    (s : EngineState) : list EngineState :=
  match steps with
  | [] => []
  | st :: rest =>
      s :: step_states P self rest
             (_notify_step_complete self (fst (_validate_step P self st s))
                (snd (_validate_step P self st s)))
  end.

(** The results of the per-step algorithm, each step run in its own
    start state. *)
Definition step_results (P : Platform) (self : ValidationEngine) (steps : list TestStep)
    (s : EngineState) : list ValidationResult :=
  zip_with (fun st s1 => fst (_validate_step P self st s1)) steps
    (step_states P self steps s).

(** The step a protocol row stands for, read off its three columns: the
    stripped identifiers, when all three are present and none is blank. *)
Definition expected_step (strip : string -> string) (row : gmap string (option string))
    : option TestStep :=
  match row !! "StepID", row !! "ScreenID", row !! "ExpectedStringID" with
  | Some (Some a), Some (Some b), Some (Some c) =>
      if str_falsy (strip a) || str_falsy (strip b) || str_falsy (strip c) then None
      else Some (mkTestStep (strip a) (strip b) (strip c))
  | _, _, _ => None
  end.

(** The exception of the first load that fails, in the order protocol,
    expected strings, coordinates. *)
Definition first_failure (P : Platform) (self : ValidationEngine) : option exn :=
  match load_test_protocol (data_loader self) (protocol_file P (config self)) with
  | inl e => Some e
  | inr _ =>
      match load_expected_strings (data_loader self) (string_map_file P (config self)) with
      | inl e => Some e
      | inr _ =>
          match load_coordinates (data_loader self) (coordinate_file P (config self)) with
          | inl e => Some e
          | inr _ => None
          end
      end
  end.

(** The step a protocol row gives, if it gives one. *)
Definition row_step (strip : string -> string) (row : gmap string (option string))
    : option TestStep :=
  match CSVProtocol.parse_row strip 0 row with
  | inr st => Some st
  | inl _ => None
  end.

(** What a load gives a key: [None] when the load raised or the key is
    absent from the returned index. *)
Definition lookup_loaded (r : exn + gmap (string * string * string) Coordinate)
    (k : string * string * string) : option Coordinate :=
  match r with inr idx => idx !! k | inl _ => None end.

(** The number of entries of a returned index, 0 when the load raised. *)
Definition index_size (r : exn + gmap (string * string * string) Coordinate) : nat :=
  match r with inr idx => size idx | inl _ => 0%nat end.

(** An integer that [str] prints to something [int] reads back, and
    that is not blank. *)
Definition prints_back (int : string -> option Z) (strip : string -> string)
    (str_int : Z -> string) (z : Z) : Prop :=
  int (str_int z) = Some z /\ str_falsy (strip (str_int z)) = false.

(** The key under which the loader files an annotation. *)
Definition annotation_key (strip : string -> string) (a : AnnotationData)
    : string * string * string :=
  (strip (ann_step_id a), strip (ann_screen_id a), strip (ann_expected_string_id a)).

(** The file [_save_annotations] writes for a list of annotations, as
    [csv.DictReader] reads it. *)
Definition saved_annotations (str_int : Z -> string) (anns : list AnnotationData)
    : CSVDataLoader.CsvFile :=
  CSVDataLoader.mkCsvFile (Some annotation_header)
    (map (fun a => dict_row annotation_header (to_csv_row str_int a)) anns).

(** The invariant of a bounding box. *)
Definition valid_box (c : Coordinate) : Prop :=
  0 <= left c < right c /\ 0 <= top c < bottom c.

Definition is_duplicate_event (ev : CSVDataLoader.LoadEvent) : bool :=
  match ev with CSVDataLoader.DuplicateEntry _ => true | _ => false end.

(** A value in the unit interval. *)
Definition in_unit (q : Q) : Prop := (0 <= q <= 1)%Q.

(** ** More example data *)

Module Samples.

(** [str] on integers: decimal digits, with a leading minus sign. *)
Fixpoint decimal (fuel : nat) (n : Z) (acc : string) : string :=
  let acc' := String (ascii_of_nat (48 + Z.to_nat (n mod 10))) acc in
  match fuel with
  | O => acc'
  | S fuel' => if n / 10 =? 0 then acc' else decimal fuel' (n / 10) acc'
  end.

Definition str_int (z : Z) : string :=
  if z <? 0 then String "-" (decimal (Z.to_nat (Z.log2 (- z))) (- z) EmptyString)
  else decimal (Z.to_nat (Z.log2 z)) z EmptyString.

Definition annotation : AnnotationData :=
  mkAnnotationData "S1" "ScreenA" "greeting" Demo.box.

Definition lower_char (a : ascii) : ascii :=
  let n := nat_of_ascii a in
  if (65 <=? n)%nat && (n <=? 90)%nat then ascii_of_nat (n + 32) else a.

Fixpoint lower (s : string) : string :=
  match s with
  | EmptyString => EmptyString
  | String a rest => String (lower_char a) (lower rest)
  end.

(** A stand-in for the similarity ratio: 1 on equal strings, 1/2 otherwise. *)
Definition ratio (a b : string) : Q := if String.eqb a b then 1%Q else (1 # 2)%Q.

Definition never : Matchers.StringMatcher := fun _ _ => inr (false, (7 # 10)%Q).
Definition weak : Matchers.StringMatcher := fun _ _ => inr (true, (6 # 10)%Q).
Definition strong : Matchers.StringMatcher := fun _ _ => inr (true, (9 # 10)%Q).
Definition failing : Matchers.StringMatcher :=
  fun _ _ => inl (Exc Exception_ "matcher crashed").

Definition protocol_table : CSVDataLoader.CsvFile :=
  CSVDataLoader.mkCsvFile (Some ["StepID"; "ScreenID"; "ExpectedStringID"])
    [ list_to_map [("StepID", Some "S1"); ("ScreenID", Some "ScreenA");
                   ("ExpectedStringID", Some "greeting")];
      list_to_map [("StepID", Some " "); ("ScreenID", Some "ScreenB");
                   ("ExpectedStringID", Some "greeting")];
      list_to_map [("StepID", Some "S3"); ("ScreenID", Some "ScreenA");
                   ("ExpectedStringID", Some " farewell ")] ].

Definition read_protocol (p : string) : option (exn + CSVDataLoader.CsvFile) :=
  if String.eqb p "data/test_protocol.csv" then Some (inr protocol_table)
  else if String.eqb p "data/unreadable.csv" then Some (inl (Exc Exception_ "permission denied"))
  else None.

(** Two results without a confidence or a time: a missing image and a
    missing expected text. *)
Definition unread : list ValidationResult :=
  [ mkValidationResult Demo.s2 "Hello" "" MISSING_IMAGE None None
      (Some "Image not found: data/screenshots/ScreenB.png");
    mkValidationResult Demo.s3 "" "" ERROR None None
      (Some "Expected string not found: farewell") ].

(** The length of the last component of a path. *)
Fixpoint name_length (p : string) (n : nat) : nat :=
  match p with
  | EmptyString => n
  | String a rest => if Ascii.eqb a "/" then name_length rest 0 else name_length rest (S n)
  end.

(** A file system that refuses file names of more than 255 characters:
    [Path.exists()] raises [OSError] for them (errno ENAMETOOLONG), and
    no file of such a name exists. *)
Definition posix : Platform :=
  mkPlatform (clock Demo.platform)
    (fun p => if (255 <? name_length p 0)%nat
              then inl (Exc Exception_ ("[Errno 36] File name too long: "
                                         +:+ repr_str Demo.platform p))
              else inr (String.eqb p "data/screenshots/ScreenA.png"))
    (path_join Demo.platform) (repr_str Demo.platform) (image_open Demo.platform)
    (image_crop Demo.platform).

Fixpoint replicate_char (n : nat) (a : ascii) : string :=
  match n with
  | O => EmptyString
  | S n' => String a (replicate_char n' a)
  end.

(** A step on a screen whose id has 300 characters. *)
Definition long_step : TestStep :=
  mkTestStep "S5" (replicate_char 300 "A") "greeting".

(** A coordinate table whose only row has its right edge left of its
    left edge. *)
Definition bad_table : CSVDataLoader.CsvFile :=
  CSVDataLoader.mkCsvFile
    (Some ["StepID"; "ScreenID"; "ExpectedStringID"; "Left"; "Top"; "Right"; "Bottom"])
    [ Demo.row "S9" "ScreenC" "title" "8" "8" "2" "9" ].

Definition read_bad (p : string) : option (exn + CSVDataLoader.CsvFile) :=
  Some (inr bad_table).

End Samples.

(** * Properties *)

Ltac unfold_monad :=
  unfold try_except, bind, ret, raise, gets, modify, of_sum, of_option_exn, lift in *.

(** Case analysis on an innermost scrutinee of the goal. *)
Ltac break_match :=
  match goal with
  | |- context [match ?x with _ => _ end] =>
      lazymatch x with
      | context [match _ with _ => _ end] => fail
      | _ => destruct x eqn:?
      end
  end.

(** ** Python built-ins *)

Lemma py_min_Qmin (a b : Q) : py_min a b = Qmin a b.
Proof.
  unfold py_min, Qmin, GenericMinMax.gmin.
  rewrite <- (Qcompare_antisym a b).
  destruct (Qcompare a b); reflexivity.
Qed.

Lemma split_first_is_primary_subtag (s : string) :
  first_part (str_split hyphen s) = primary_subtag s.
Proof.
  induction s as [|a s IH]; simpl; [reflexivity|].
  destruct (Ascii.eqb a hyphen); [reflexivity|].
  rewrite <- IH.
  destruct (str_split hyphen s) as [|p ps]; reflexivity.
Qed.

Lemma append_nonempty (a b : string) : a <> EmptyString -> a +:+ b <> EmptyString.
Proof. intros H. destruct a; [congruence | discriminate]. Qed.

(** ** Notifications and per-step validation leave the caches alone *)

Section EngineFacts.

Variable P : Platform.
Variable self : ValidationEngine.

Lemma only_reported_refl s : only_reported s s.
Proof. repeat split. Qed.

Lemma only_reported_trans s1 s2 s3 :
  only_reported s1 s2 -> only_reported s2 s3 -> only_reported s1 s3.
Proof.
  unfold only_reported. intros (?&?&?&?&?) (?&?&?&?&?).
  repeat split; congruence.
Qed.

Lemma notify_from_only_reported obs : forall i hook n s,
  only_reported s (notify_from i obs hook n s).
Proof.
  induction obs as [|o obs IH]; intros i hook n s; simpl.
  - apply only_reported_refl.
  - eapply only_reported_trans; [|apply IH].
    destruct (hook o); repeat split.
Qed.

Lemma validate_step_step st s : step (fst (_validate_step P self st s)) = st.
Proof.
  unfold _validate_step, step_handler, validate_after_lookup, validate_with_text,
    get_expected_text, get_coordinate, _extract_text_from_region, extract_body, time_time.
  unfold_monad. simpl.
  repeat (break_match; simpl; try reflexivity; try congruence).
Qed.




Lemma validate_one_eq st acc s :
  validate_one P self st acc s =
  (inr (acc ++ [fst (_validate_step P self st s)]),
   _notify_step_complete self (fst (_validate_step P self st s))
     (snd (_validate_step P self st s))).
Proof.
  unfold validate_one. unfold_monad.
  destruct (_validate_step P self st s) as [r s1]. reflexivity.
Qed.

End EngineFacts.

(** ** The batch: one result per step *)

Section EngineRun.

Variable P : Platform.
Variable self : ValidationEngine.

(** The loop appends, for every step, the result of the per-step
    algorithm run in the state the step starts in. *)
Lemma validate_loop_results steps : forall acc s,
  exists s',
    validate_loop P self steps acc s = (inr (acc ++ step_results P self steps s), s').
Proof.
  induction steps as [|st steps IH]; intros acc s.
  - exists s. cbn [validate_loop]. unfold ret, step_results. cbn [zip_with].
    rewrite app_nil_r. reflexivity.
  - cbn [validate_loop]. unfold bind. rewrite validate_one_eq.
    destruct (IH (acc ++ [fst (_validate_step P self st s)])
                (_notify_step_complete self (fst (_validate_step P self st s))
                   (snd (_validate_step P self st s)))) as (s' & Hrun).
    exists s'. rewrite Hrun, <- app_assoc. reflexivity.
Qed.

Lemma validate_all_results s st0 steps es cs :
  load_test_protocol (data_loader self) (protocol_file P (config self)) = inr (st0 :: steps) ->
  load_expected_strings (data_loader self) (string_map_file P (config self)) = inr es ->
  load_coordinates (data_loader self) (coordinate_file P (config self)) = inr cs ->
  exists s',
    validate_all P self s =
      (inr (step_results P self (st0 :: steps) (run_start self (st0 :: steps) es cs s)), s').
Proof.
  intros H1 H2 H3.
  destruct (validate_loop_results (st0 :: steps) [] (run_start self (st0 :: steps) es cs s))
    as (s2 & Hrun).
  rewrite app_nil_l in Hrun.
  unfold validate_all, _load_data, load_datasets. unfold_monad.
  rewrite H1, H2, H3.
  cbn [_test_steps set_coordinates set_caches logger set_expected_strings set_test_steps].
  unfold run_start, after_loads in Hrun.
  cbn [_test_steps set_coordinates set_caches logger set_expected_strings set_test_steps]
    in Hrun.
  rewrite Hrun. eexists. reflexivity.
Qed.

Lemma validate_all_no_steps s es cs :
  load_test_protocol (data_loader self) (protocol_file P (config self)) = inr [] ->
  load_expected_strings (data_loader self) (string_map_file P (config self)) = inr es ->
  load_coordinates (data_loader self) (coordinate_file P (config self)) = inr cs ->
  exists s',
    validate_all P self s =
      (inl (Exc ValidationError "Data loading failed: No test steps loaded"), s').
Proof.
  intros H1 H2 H3.
  unfold validate_all, _load_data, load_datasets. unfold_monad.
  rewrite H1, H2, H3. eexists. reflexivity.
Qed.

Lemma step_results_steps steps : forall s,
  map step (step_results P self steps s) = steps.
Proof.
  unfold step_results.
  induction steps as [|st steps IH]; intros s; [reflexivity|].
  cbn [step_states zip_with map]. rewrite validate_step_step. f_equal. apply IH.
Qed.



End EngineRun.

(** C1, as amended: when the three loads return and the loaded step list
    is not empty, [validate_all] returns a list with exactly one result
    per step, in the order of the step list, whatever the steps'
    classifications and whatever the collaborators raise; when the three
    loads return and the step list is empty, it raises the
    [ValidationError] "Data loading failed: No test steps loaded" instead
    of returning an empty list. *)
Theorem validate_all_one_result_per_step P self s steps es cs :
  load_test_protocol (data_loader self) (protocol_file P (config self)) = inr steps ->
  load_expected_strings (data_loader self) (string_map_file P (config self)) = inr es ->
  load_coordinates (data_loader self) (coordinate_file P (config self)) = inr cs ->
  (steps <> [] ->
     exists results s',
       validate_all P self s = (inr results, s') /\
       length results = length steps /\
       map step results = steps) /\
  (steps = [] ->
     exists s',
       validate_all P self s =
         (inl (Exc ValidationError "Data loading failed: No test steps loaded"), s')).
Proof.
  intros H1 H2 H3. split.
  - intros Hne. destruct steps as [|st0 steps]; [congruence|].
    destruct (validate_all_results P self s st0 steps es cs H1 H2 H3) as (s' & Hrun).
    eexists. exists s'. split; [exact Hrun|].
    pose proof (step_results_steps P self (st0 :: steps)
                  (run_start self (st0 :: steps) es cs s)) as Hsteps.
    split; [|exact Hsteps].
    transitivity (length (map step (step_results P self (st0 :: steps)
                                      (run_start self (st0 :: steps) es cs s)))).
    + symmetry. apply length_map.
    + rewrite Hsteps. reflexivity.
  - intros ->. exact (validate_all_no_steps P self s es cs H1 H2 H3).
Qed.

Lemma validate_all_one_result_per_step_witness :
  (exists results s',
     validate_all Demo.platform (Demo.engine [Demo.s1; Demo.s2; Demo.s3; Demo.s4])
       initial_state = (inr results, s') /\
     length results = 4%nat /\
     map step results = [Demo.s1; Demo.s2; Demo.s3; Demo.s4]) /\
  (exists s',
     validate_all Demo.platform (Demo.engine []) initial_state =
       (inl (Exc ValidationError "Data loading failed: No test steps loaded"), s')).
Proof.
  split.
  - apply (validate_all_one_result_per_step Demo.platform
             (Demo.engine [Demo.s1; Demo.s2; Demo.s3; Demo.s4]) initial_state
             [Demo.s1; Demo.s2; Demo.s3; Demo.s4] Demo.expected Demo.coords);
      [reflexivity | reflexivity | reflexivity | discriminate].
  - apply (validate_all_one_result_per_step Demo.platform (Demo.engine []) initial_state
             [] Demo.expected Demo.coords); reflexivity.
Defined.

(** C1 as stated fails for a loader that returns an empty step list: the
    three loads return, and [validate_all] raises a [ValidationError]
    instead of returning the empty list of results. *)
Lemma validate_all_empty_protocol_raises :
  loads_succeed Demo.platform (Demo.engine []) = true /\
  fst (validate_all Demo.platform (Demo.engine []) initial_state) =
    inl (Exc ValidationError "Data loading failed: No test steps loaded") /\
  ~ (exists results s',
       validate_all Demo.platform (Demo.engine []) initial_state = (inr results, s') /\
       map step results = []).
Proof.
  split; [reflexivity|]. split; [reflexivity|].
  intros (results & s' & Hrun & _). vm_compute in Hrun. discriminate Hrun.
Qed.

(** ** The per-step algorithm *)

(** C2: a step whose expected-string id is absent from the map, or mapped
    to the empty string, is classified ERROR with a message naming the
    identifier; no image is opened and the extractor receives no call. *)
Theorem missing_expected_text_is_error P self st s m :
  _expected_strings s = Some m ->
  m !! expected_string_id st = None \/ m !! expected_string_id st = Some EmptyString ->
  match_result (fst (_validate_step P self st s)) = ERROR /\
  error_message (fst (_validate_step P self st s)) =
    Some ("Expected string not found: " +:+ expected_string_id st) /\
  ocr_calls (snd (_validate_step P self st s)) = ocr_calls s /\
  image_opens (snd (_validate_step P self st s)) = image_opens s.
Proof.
  intros Hm Hlook.
  unfold _validate_step, get_expected_text. unfold_monad. simpl.
  rewrite Hm. destruct Hlook as [Hl|Hl]; rewrite Hl; simpl; repeat split.
Qed.

Lemma missing_expected_text_is_error_witness :
  match_result (fst (_validate_step Demo.platform (Demo.engine []) Demo.s3 Demo.loaded)) = ERROR /\
  error_message (fst (_validate_step Demo.platform (Demo.engine []) Demo.s3 Demo.loaded)) =
    Some ("Expected string not found: " +:+ "farewell") /\
  ocr_calls (snd (_validate_step Demo.platform (Demo.engine []) Demo.s3 Demo.loaded)) = [] /\
  image_opens (snd (_validate_step Demo.platform (Demo.engine []) Demo.s3 Demo.loaded)) = [].
Proof.
  apply (missing_expected_text_is_error Demo.platform (Demo.engine []) Demo.s3 Demo.loaded
           Demo.expected); [reflexivity | left; reflexivity].
Defined.

(** C3, as amended: with the expected text resolved, when
    [Path.exists()] reports the screenshot absent the result is
    MISSING_IMAGE (expected text kept, no extracted text) whatever the
    coordinate index holds; when it reports the screenshot present and
    the index has no entry for the composite key the result is
    MISSING_COORDINATES; when the existence test itself raises, the
    result is ERROR with the time elapsed since the step started and the
    exception's message.  In all three cases no image is opened and the
    extractor receives no call. *)
Theorem missing_image_before_missing_coordinates P self st s m t :
  _expected_strings s = Some m ->
  m !! expected_string_id st = Some t ->
  t <> EmptyString ->
  (path_exists P (image_path_of P self st) = inr false ->
     fst (_validate_step P self st s) =
       mkValidationResult st t "" MISSING_IMAGE None None
         (Some ("Image not found: " +:+ image_path_of P self st)) /\
     ocr_calls (snd (_validate_step P self st s)) = ocr_calls s /\
     image_opens (snd (_validate_step P self st s)) = image_opens s) /\
  (forall cm,
     path_exists P (image_path_of P self st) = inr true ->
     _coordinates s = Some cm ->
     cm !! coordinate_key st = None ->
     fst (_validate_step P self st s) =
       mkValidationResult st t "" MISSING_COORDINATES None None
         (Some ("Coordinates not found for: " +:+ str_key P (coordinate_key st))) /\
     ocr_calls (snd (_validate_step P self st s)) = ocr_calls s /\
     image_opens (snd (_validate_step P self st s)) = image_opens s) /\
  (forall e,
     path_exists P (image_path_of P self st) = inl e ->
     fst (_validate_step P self st s) =
       mkValidationResult st t "" ERROR None
         (Some ((clock P (S (time_reads s)) - clock P (time_reads s)) * 1000)%Q)
         (Some (exc_str e)) /\
     ocr_calls (snd (_validate_step P self st s)) = ocr_calls s /\
     image_opens (snd (_validate_step P self st s)) = image_opens s).
Proof.
  intros Hm Ht Hne.
  destruct t as [|a t']; [congruence|].
  split; [|split].
  - intros Hex.
    unfold _validate_step, get_expected_text, validate_after_lookup, validate_with_text.
    unfold_monad. simpl. rewrite Hm, Ht. simpl. rewrite Hex. simpl. repeat split.
  - intros cm Hex Hc Hk.
    unfold _validate_step, get_expected_text, validate_after_lookup, validate_with_text,
      get_coordinate.
    unfold_monad. simpl. rewrite Hm, Ht. simpl. rewrite Hex. simpl.
    rewrite Hc, Hk. simpl. repeat split.
  - intros e Hex.
    unfold _validate_step, get_expected_text, validate_after_lookup, validate_with_text,
      step_handler.
    unfold_monad. simpl. rewrite Hm, Ht. simpl. rewrite Hex. simpl. repeat split.
Qed.

Lemma missing_image_before_missing_coordinates_witness :
  (Demo.coords !! coordinate_key Demo.s2 = Some Demo.box /\
   match_result (fst (_validate_step Demo.platform (Demo.engine []) Demo.s2 Demo.loaded))
     = MISSING_IMAGE) /\
  match_result (fst (_validate_step Demo.platform (Demo.engine []) Demo.s4 Demo.loaded))
    = MISSING_COORDINATES /\
  match_result (fst (_validate_step Samples.posix (Demo.engine []) Samples.long_step
                       Demo.loaded)) = ERROR.
Proof.
  split; [split; [reflexivity|]|split].
  - destruct (missing_image_before_missing_coordinates Demo.platform (Demo.engine [])
                Demo.s2 Demo.loaded Demo.expected "Hello") as (Himg & _ & _);
      [reflexivity | reflexivity | discriminate |].
    destruct (Himg eq_refl) as [Hr _]. rewrite Hr. reflexivity.
  - destruct (missing_image_before_missing_coordinates Demo.platform (Demo.engine [])
                Demo.s4 Demo.loaded Demo.expected "Hello") as (_ & Hco & _);
      [reflexivity | reflexivity | discriminate |].
    destruct (Hco Demo.coords eq_refl eq_refl eq_refl) as [Hr _]. rewrite Hr. reflexivity.
  - destruct (missing_image_before_missing_coordinates Samples.posix (Demo.engine [])
                Samples.long_step Demo.loaded Demo.expected "Hello") as (_ & _ & Herr);
      [reflexivity | reflexivity | discriminate |].
    destruct (Herr (Exc Exception_
                      ("[Errno 36] File name too long: "
                       +:+ repr_str Samples.posix
                             (image_path_of Samples.posix (Demo.engine []) Samples.long_step)))
                eq_refl) as [Hr _].
    rewrite Hr. reflexivity.
Defined.

(** C3 as stated fails for a screenshot whose name the file system
    refuses: for a screen id of 300 characters no such file exists, yet
    [Path.exists()] raises instead of answering, and the step, whose
    expected text is resolved, is classified ERROR with a processing
    time, not MISSING_IMAGE. *)
Lemma unreadable_name_is_error_not_missing_image :
  Demo.expected !! expected_string_id Samples.long_step = Some "Hello" /\
  path_exists Samples.posix (image_path_of Samples.posix (Demo.engine []) Samples.long_step)
    = inl (Exc Exception_
             ("[Errno 36] File name too long: "
              +:+ repr_str Samples.posix
                    (image_path_of Samples.posix (Demo.engine []) Samples.long_step))) /\
  match_result (fst (_validate_step Samples.posix (Demo.engine []) Samples.long_step
                       Demo.loaded)) = ERROR /\
  processing_time_ms (fst (_validate_step Samples.posix (Demo.engine []) Samples.long_step
                             Demo.loaded)) = Some 1000%Q /\
  match_result (fst (_validate_step Samples.posix (Demo.engine []) Samples.long_step
                       Demo.loaded)) <> MISSING_IMAGE.
Proof.
  split; [reflexivity|]. split; [reflexivity|]. split; [reflexivity|].
  split; [reflexivity|]. vm_compute. discriminate.
Qed.

(** C4: for a step that reaches extraction and comparison, with the
    extractor returning [(txt, e)] and the comparator [(is_match, cf)],
    the result's confidence is [min e cf] and its classification is PASS
    exactly when the comparator reported a match, FAIL otherwise.  No
    range assumption on [e] and [cf] is needed. *)
Theorem pass_iff_match_and_min_confidence P self st s m t cm c txt e is_match cf :
  _expected_strings s = Some m ->
  m !! expected_string_id st = Some t ->
  t <> EmptyString ->
  path_exists P (image_path_of P self st) = inr true ->
  _coordinates s = Some cm ->
  cm !! coordinate_key st = Some c ->
  image_open P (image_path_of P self st) = None ->
  image_crop P (image_path_of P self st) (to_tuple c) = None ->
  ocr_engine self (mkImage (image_path_of P self st) (Some (to_tuple c)))
    (make_ocr_config (config self)) = inr (txt, e) ->
  string_matcher self t txt = inr (is_match, cf) ->
  let r := fst (_validate_step P self st s) in
  confidence_score r = Some (Qmin e cf) /\
  match_result r = (if is_match then PASS else FAIL) /\
  (match_result r = PASS <-> is_match = true) /\
  expected_text r = t /\ ocr_output r = txt.
Proof.
  intros Hm Ht Hne Hex Hc Hk Hopen Hcrop Hocr Hmatch r. subst r.
  destruct t as [|a t']; [congruence|].
  unfold _validate_step, get_expected_text, validate_after_lookup, validate_with_text,
    get_coordinate, _extract_text_from_region, extract_body, time_time.
  unfold_monad. simpl.
  rewrite Hm, Ht. simpl. rewrite Hex. simpl. rewrite Hc, Hk. simpl.
  rewrite Hopen, Hcrop, Hocr, Hmatch. simpl.
  rewrite py_min_Qmin.
  repeat split; destruct is_match; congruence.
Qed.

Lemma pass_iff_match_and_min_confidence_witness :
  let r := fst (_validate_step Demo.platform (Demo.engine []) Demo.s1 Demo.loaded) in
  confidence_score r = Some (Qmin (95 # 100) 1) /\
  match_result r = PASS /\
  (match_result r = PASS <-> true = true) /\
  expected_text r = "Hello" /\ ocr_output r = "Hello".
Proof.
  apply (pass_iff_match_and_min_confidence Demo.platform (Demo.engine []) Demo.s1
           Demo.loaded Demo.expected "Hello" Demo.coords Demo.box "Hello" (95 # 100) true 1);
    first [reflexivity | discriminate].
Defined.

(** C10: a PASS or FAIL result carries both a confidence and a
    processing time; a MISSING_IMAGE or MISSING_COORDINATES result, and
    the ERROR result of an absent or empty expected text, carries neither
    and has a non-empty error message. *)
Theorem result_fields_by_classification P self st s :
  let r := fst (_validate_step P self st s) in
  (match_result r = PASS \/ match_result r = FAIL ->
     is_Some (confidence_score r) /\ is_Some (processing_time_ms r)) /\
  (match_result r = MISSING_IMAGE \/ match_result r = MISSING_COORDINATES ->
     confidence_score r = None /\ processing_time_ms r = None /\
     exists msg, error_message r = Some msg /\ msg <> EmptyString) /\
  (forall m, _expected_strings s = Some m ->
     default EmptyString (m !! expected_string_id st) = EmptyString ->
     match_result r = ERROR /\
     confidence_score r = None /\ processing_time_ms r = None /\
     exists msg, error_message r = Some msg /\ msg <> EmptyString).
Proof.
  intros r. subst r.
  split; [|split].
  - unfold _validate_step, step_handler, validate_after_lookup, validate_with_text,
      get_expected_text, get_coordinate, _extract_text_from_region, extract_body, time_time.
    unfold_monad. simpl.
    repeat (break_match; simpl in *);
      intros [H|H]; try discriminate H; split; eexists; reflexivity.
  - unfold _validate_step, step_handler, validate_after_lookup, validate_with_text,
      get_expected_text, get_coordinate, _extract_text_from_region, extract_body, time_time.
    unfold_monad. simpl.
    repeat (break_match; simpl in *);
      intros [H|H]; try discriminate H;
      (split; [reflexivity|]; split; [reflexivity|];
       eexists; split; [reflexivity|]; apply append_nonempty; discriminate).
  - intros m Hm Hempty.
    unfold _validate_step, get_expected_text, validate_after_lookup.
    unfold_monad. simpl. rewrite Hm. simpl. rewrite Hempty. simpl.
    repeat split. eexists; split; [reflexivity|]. apply append_nonempty; discriminate.
Qed.

Lemma result_fields_by_classification_witness :
  is_Some (confidence_score (fst (_validate_step Demo.platform (Demo.engine []) Demo.s1
                                    Demo.loaded))) /\
  error_message (fst (_validate_step Demo.platform (Demo.engine []) Demo.s3 Demo.loaded))
    <> None.
Proof.
  split.
  - destruct (result_fields_by_classification Demo.platform (Demo.engine []) Demo.s1
                Demo.loaded) as (Hdone & _ & _).
    destruct Hdone as [Hc _]; [left; reflexivity | exact Hc].
  - destruct (result_fields_by_classification Demo.platform (Demo.engine []) Demo.s3
                Demo.loaded) as (_ & _ & Htext).
    destruct (Htext Demo.expected eq_refl eq_refl) as (_ & _ & _ & msg & Hmsg & _).
    rewrite Hmsg. discriminate.
Defined.

(** ** Load failures and the lifetime of the caches *)

(** C5: [validate_all] always ends with the three caches cleared; and
    when one of the three loads fails it raises one [ValidationError]
    instead of returning a list, having notified no observer, read no
    clock, opened no image and called neither collaborator. *)
Theorem load_failure_raises_and_caches_are_cleared P self s :
  caches (snd (validate_all P self s)) = (None, None, None) /\
  (loads_succeed P self = false ->
     (exists msg, fst (validate_all P self s) = inl (Exc ValidationError msg)) /\
     notifications (snd (validate_all P self s)) = notifications s /\
     time_reads (snd (validate_all P self s)) = time_reads s /\
     image_opens (snd (validate_all P self s)) = image_opens s /\
     ocr_calls (snd (validate_all P self s)) = ocr_calls s /\
     match_calls (snd (validate_all P self s)) = match_calls s).
Proof.
  split.
  - unfold validate_all, _load_data.
    match goal with
    | |- context [bind ?a ?b s] => destruct (bind a b s) as [[e|rs] s1]
    end; reflexivity.
  - unfold loads_succeed, validate_all, _load_data, load_datasets. unfold_monad.
    destruct (load_test_protocol _ _) as [e1|ts]; simpl.
    { intros _. split; [eexists; reflexivity|]. repeat split. }
    destruct (load_expected_strings _ _) as [e2|es]; simpl.
    { intros _. split; [eexists; reflexivity|]. repeat split. }
    destruct (load_coordinates _ _) as [e3|cs]; simpl.
    { intros _. split; [eexists; reflexivity|]. repeat split. }
    discriminate.
Qed.

Lemma load_failure_raises_and_caches_are_cleared_witness :
  caches (snd (validate_all Demo.platform Demo.unloadable_engine initial_state))
    = (None, None, None) /\
  exists msg,
    fst (validate_all Demo.platform Demo.unloadable_engine initial_state)
      = inl (Exc ValidationError msg).
Proof.
  destruct (load_failure_raises_and_caches_are_cleared Demo.platform Demo.unloadable_engine
              initial_state) as [Hcleared Hfail].
  split; [exact Hcleared|].
  destruct (Hfail eq_refl) as [Hraise _]. exact Hraise.
Defined.

(** ** A raising step does not stop the batch *)




(** ** The summary *)

Lemma fold_left_Qplus (xs : list Q) : forall a : Q,
  (fold_left Qplus xs a == a + fold_right Qplus 0 xs)%Q.
Proof.
  induction xs as [|x xs IH]; intros a; simpl.
  - ring.
  - rewrite IH. ring.
Qed.

Lemma py_sum_fold_right (xs : list Q) : (py_sum xs == fold_right Qplus 0 xs)%Q.
Proof. unfold py_sum. rewrite fold_left_Qplus. ring. Qed.

(** Filtering on [is not None] and then reading the attribute lists the
    attribute's values over the results that carry it. *)
Lemma filter_then_read {A} (d : A) (f : ValidationResult -> option A) rs :
  map (fun r => the d (f r)) (List.filter (fun r => is_not_None (f r)) rs) = present f rs.
Proof.
  unfold present.
  induction rs as [|r rs IH]; [reflexivity|].
  cbn [List.filter omap list_omap].
  destruct (f r) as [x|] eqn:Hf; cbn [is_not_None map].
  - rewrite Hf. cbn [the]. f_equal. exact IH.
  - exact IH.
Qed.

Lemma average_is_mean (f : ValidationResult -> option Q) rs :
  (match List.filter (fun r => is_not_None (f r)) rs with
   | [] => 0
   | _ :: _ =>
       py_sum (map (fun r => the 0 (f r)) (List.filter (fun r => is_not_None (f r)) rs))
       / py_len (List.filter (fun r => is_not_None (f r)) rs)
   end == mean (present f rs))%Q.
Proof.
  rewrite <- (filter_then_read 0%Q f rs).
  destruct (List.filter (fun r => is_not_None (f r)) rs) as [|v vs]; [reflexivity|].
  unfold mean, py_len.
  change (map (fun r => the 0%Q (f r)) (v :: vs))
    with (the 0%Q (f v) :: map (fun r => the 0%Q (f r)) vs).
  rewrite py_sum_fold_right.
  cbn [length]. rewrite length_map. reflexivity.
Qed.

(** ** The OCR configuration of an extraction *)

(** C8, as amended: the extractor is called with a configuration whose
    language is the primary subtag of the configured locale tag when the
    tag contains a hyphen and "eng" when it does not, and whose
    preprocessing flag is the configuration's. *)
Theorem extraction_language_and_preprocessing P self path c s :
  image_open P path = None ->
  image_crop P path (to_tuple c) = None ->
  exists cfg,
    ocr_calls (snd (_extract_text_from_region P self path c s)) =
      ocr_calls s ++ [(mkImage path (Some (to_tuple c)), cfg)] /\
    ocr_language cfg =
      (if str_contains hyphen (language (config self))
       then primary_subtag (language (config self))
       else "eng") /\
    preprocessing_enabled cfg = enable_preprocessing (config self).
Proof.
  intros Hopen Hcrop.
  exists (make_ocr_config (config self)).
  split; [|split].
  - unfold _extract_text_from_region, extract_body. unfold_monad.
    rewrite Hopen, Hcrop. simpl.
    destruct (ocr_engine self _ _) as [e|r]; simpl; [|reflexivity].
    destruct (is_FileNotFoundError e); reflexivity.
  - unfold make_ocr_config. cbn [ocr_language].
    rewrite split_first_is_primary_subtag. reflexivity.
  - reflexivity.
Qed.

Lemma extraction_language_and_preprocessing_witness :
  exists cfg,
    ocr_calls (snd (_extract_text_from_region Demo.platform (Demo.engine [])
                      "data/screenshots/ScreenA.png" Demo.box initial_state)) =
      [] ++ [(mkImage "data/screenshots/ScreenA.png" (Some (to_tuple Demo.box)), cfg)] /\
    ocr_language cfg = (if str_contains hyphen "en-US" then primary_subtag "en-US" else "eng") /\
    preprocessing_enabled cfg = true.
Proof.
  apply (extraction_language_and_preprocessing Demo.platform (Demo.engine [])
           "data/screenshots/ScreenA.png" Demo.box initial_state); reflexivity.
Defined.

(** C8 as stated fails for a locale tag without a hyphen: with the tag
    "fr" the extractor is called with the language "eng", which is not
    the primary subtag "fr". *)
Lemma hyphenless_tag_gives_eng :
  exists img cfg,
    ocr_calls (snd (_extract_text_from_region Demo.platform Demo.french_engine
                      "data/screenshots/ScreenA.png" Demo.box initial_state)) = [(img, cfg)] /\
    ocr_language cfg = "eng" /\
    ocr_language cfg <> primary_subtag (language (config Demo.french_engine)).
Proof.
  eexists. eexists. split; [reflexivity|]. split; [reflexivity|]. discriminate.
Qed.

(** ** The coordinate table *)

Section LoaderFacts.

Variable int : string -> option Z.
Variable strip : string -> string.

Local Abbreviation parse_row := (CSVDataLoader.parse_row int strip).
Local Abbreviation load_rows := (CSVDataLoader.load_rows int strip).

(** The row number only labels the log record of a skipped row. *)
Lemma parse_row_entry n row :
  match parse_row n row with
  | CSVDataLoader.Entry k c => Some (k, c)
  | CSVDataLoader.Skip _ => None
  end = row_entry int strip row.
Proof.
  unfold row_entry, CSVDataLoader.parse_row.
  repeat (break_match; try reflexivity; try congruence).
Qed.

Lemma load_rows_app rs1 : forall rs2 n m ev,
  load_rows n (rs1 ++ rs2) m ev =
  load_rows (n + length rs1) rs2 (fst (load_rows n rs1 m ev)) (snd (load_rows n rs1 m ev)).
Proof.
  induction rs1 as [|r rs1 IH]; intros rs2 n m ev.
  - simpl. rewrite Nat.add_0_r. reflexivity.
  - cbn [app CSVDataLoader.load_rows length].
    replace (n + S (length rs1))%nat with (S n + length rs1)%nat by lia.
    destruct (parse_row n r); apply IH.
Qed.

Lemma load_rows_keeps_events rs : forall n m ev x,
  x ∈ ev -> x ∈ snd (load_rows n rs m ev).
Proof.
  induction rs as [|r rs IH]; intros n m ev x Hx; [exact Hx|].
  cbn [CSVDataLoader.load_rows].
  destruct (parse_row n r) as [e|k c].
  - apply IH. apply elem_of_app. left. exact Hx.
  - apply IH. destruct (m !! k); [apply elem_of_app; left|]; exact Hx.
Qed.

Lemma load_rows_keeps_keys rs : forall n m ev k,
  is_Some (m !! k) -> is_Some (fst (load_rows n rs m ev) !! k).
Proof.
  induction rs as [|r rs IH]; intros n m ev k Hk; [exact Hk|].
  cbn [CSVDataLoader.load_rows].
  destruct (parse_row n r) as [e|k' c].
  - apply IH. exact Hk.
  - apply IH. destruct (decide (k' = k)) as [->|Hne].
    + rewrite lookup_insert_eq. eexists; reflexivity.
    + rewrite lookup_insert_ne; [exact Hk | exact Hne].
Qed.

(** Rows that give no entry for [k] leave the coordinate of [k] as it was. *)
Lemma load_rows_other_rows rs : forall n m ev k,
  (forall r c, In r rs -> row_entry int strip r <> Some (k, c)) ->
  fst (load_rows n rs m ev) !! k = m !! k.
Proof.
  induction rs as [|r rs IH]; intros n m ev k Hno; [reflexivity|].
  cbn [CSVDataLoader.load_rows].
  pose proof (parse_row_entry n r) as Hrow.
  destruct (parse_row n r) as [e|k' c].
  - apply IH. intros r' c' Hin. apply Hno. right. exact Hin.
  - rewrite IH by (intros r' c' Hin; apply Hno; right; exact Hin).
    apply lookup_insert_ne. intros ->.
    apply (Hno r c); [left; reflexivity | symmetry; exact Hrow].
Qed.

End LoaderFacts.

(** C9, as amended: when two valid rows of the coordinate table carry
    the same (step, screen, string) key and no valid row after the later
    one carries it again, the load returns an index that maps the key to
    the later row's box; the duplicate leaves a warning in the log and
    the load does not fail. *)
Theorem load_coordinates_last_write_wins
    int strip repr_cols read_csv path f pre r1 mid r2 post k c1 c2 :
  read_csv path = Some (inr f) ->
  CSVDataLoader.has_required f = true ->
  CSVDataLoader.rows f = pre ++ r1 :: mid ++ r2 :: post ->
  row_entry int strip r1 = Some (k, c1) ->
  row_entry int strip r2 = Some (k, c2) ->
  (forall r c, In r post -> row_entry int strip r <> Some (k, c)) ->
  exists idx events,
    CSVDataLoader.load_coordinates int strip repr_cols read_csv path = (inr idx, events) /\
    idx !! k = Some c2 /\
    CSVDataLoader.DuplicateEntry k ∈ events /\
    CSVDataLoader.level (CSVDataLoader.DuplicateEntry k) = WARNING.
Proof.
  intros Hread Hcols Hrows Hr1 Hr2 Hpost.
  unfold CSVDataLoader.load_coordinates. rewrite Hread, Hcols, Hrows. cbn [negb].
  rewrite load_rows_app.
  destruct (CSVDataLoader.load_rows int strip 2 pre ∅ []) as [m0 ev0]. cbn [fst snd].
  cbn [CSVDataLoader.load_rows].
  pose proof (parse_row_entry int strip (2 + length pre) r1) as He1. rewrite Hr1 in He1.
  destruct (CSVDataLoader.parse_row int strip (2 + length pre) r1) as [?|k1 b1];
    [discriminate He1|]. inversion He1; subst k1 b1. clear He1.
  rewrite load_rows_app.
  match goal with
  | |- context [CSVDataLoader.load_rows int strip ?n mid ?m ?ev] =>
      pose proof (load_rows_keeps_keys int strip mid n m ev k) as Hkeep;
      destruct (CSVDataLoader.load_rows int strip n mid m ev) as [m1 ev1]
  end.
  cbn [fst snd] in *.
  destruct Hkeep as [b Hb]; [rewrite lookup_insert_eq; eexists; reflexivity|].
  cbn [CSVDataLoader.load_rows].
  match goal with
  | |- context [CSVDataLoader.parse_row int strip ?n r2] =>
      pose proof (parse_row_entry int strip n r2) as He2; rewrite Hr2 in He2;
      destruct (CSVDataLoader.parse_row int strip n r2) as [?|k2 b2];
        [discriminate He2|]; inversion He2; subst k2 b2; clear He2
  end.
  rewrite Hb.
  match goal with
  | |- context [CSVDataLoader.load_rows int strip ?n post ?m ?ev] =>
      pose proof (load_rows_other_rows int strip post n m ev k Hpost) as Hlast;
      pose proof (load_rows_keeps_events int strip post n m ev
                    (CSVDataLoader.DuplicateEntry k)) as Hev;
      destruct (CSVDataLoader.load_rows int strip n post m ev) as [m2 ev2]
  end.
  cbn [fst snd] in *.
  rewrite lookup_insert_eq in Hlast.
  assert (Hne : m2 <> ∅).
  { intros ->. rewrite lookup_empty in Hlast. discriminate Hlast. }
  rewrite bool_decide_eq_false_2 by exact Hne.
  exists m2. eexists. split; [reflexivity|].
  split; [exact Hlast|]. split; [|reflexivity].
  apply elem_of_app. left. apply Hev. apply elem_of_app. right. apply list_elem_of_singleton.
  reflexivity.
Qed.

Lemma load_coordinates_last_write_wins_witness :
  exists idx events,
    CSVDataLoader.load_coordinates Demo.int Demo.strip Demo.repr_cols Demo.read_csv
      "data/string_coordinates.csv" = (inr idx, events) /\
    idx !! ("S1", "ScreenA", "greeting") = Some (mkCoordinate 30 40 130 80) /\
    CSVDataLoader.DuplicateEntry ("S1", "ScreenA", "greeting") ∈ events /\
    CSVDataLoader.level (CSVDataLoader.DuplicateEntry ("S1", "ScreenA", "greeting")) = WARNING.
Proof.
  apply (load_coordinates_last_write_wins Demo.int Demo.strip Demo.repr_cols Demo.read_csv
           "data/string_coordinates.csv" Demo.table
           []
           (Demo.row "S1" "ScreenA" "greeting" "10" "20" "110" "60")
           [Demo.row "S2" "ScreenB" "greeting" "5" "5" "x" "9"]
           (Demo.row "S1" " ScreenA" "greeting" "30" "40" "130" "80")
           [Demo.row "S9" "ScreenC" "title" "8" "8" "2" "9"]
           ("S1", "ScreenA", "greeting")
           (mkCoordinate 10 20 110 60) (mkCoordinate 30 40 130 80));
    [reflexivity | reflexivity | reflexivity | vm_compute; reflexivity
    | vm_compute; reflexivity |].
  intros r c [<-|[]]. vm_compute. discriminate.
Defined.

(** C9 as stated fails for a pair of valid rows followed by a third
    valid row with the same key: the load returns an index that holds
    the third row's box, not the box of the pair's later row. *)
Lemma third_duplicate_overrides_the_pair :
  row_entry Demo.int Demo.strip (Demo.row "S1" "ScreenA" "greeting" "10" "20" "110" "60")
    = Some ("S1", "ScreenA", "greeting", mkCoordinate 10 20 110 60) /\
  row_entry Demo.int Demo.strip (Demo.row "S1" "ScreenA" "greeting" "30" "40" "130" "80")
    = Some ("S1", "ScreenA", "greeting", mkCoordinate 30 40 130 80) /\
  match fst (CSVDataLoader.load_coordinates Demo.int Demo.strip Demo.repr_cols Demo.read_csv
               "data/triple.csv") with
  | inr idx =>
      idx !! ("S1", "ScreenA", "greeting") = Some (mkCoordinate 50 60 150 100) /\
      idx !! ("S1", "ScreenA", "greeting") <> Some (mkCoordinate 30 40 130 80)
  | inl _ => False
  end.
Proof.
  split; [vm_compute; reflexivity|].
  split; [vm_compute; reflexivity|].
  vm_compute. split; [reflexivity | discriminate].
Qed.

(** * Further properties of the engine *)

Ltac unfold_step :=
  unfold _validate_step, step_handler, validate_after_lookup, validate_with_text,
    get_expected_text, get_coordinate, _extract_text_from_region, extract_body, time_time;
  unfold_monad; simpl.

Ltac invert_pairs :=
  repeat match goal with
         | H : (_, _) = (_, _) |- _ => inversion H; subst; clear H
         end.

Section EngineTrace.

Variable P : Platform.
Variable self : ValidationEngine.

Lemma validate_step_notifications st s :
  notifications (snd (_validate_step P self st s)) = notifications s.
Proof.
  unfold_step.
  repeat (break_match; simpl in *; try reflexivity; try congruence);
    invert_pairs; reflexivity.
Qed.

(** One step calls the extractor at most once, and the comparator at
    most once and only after the extractor. *)
Lemma validate_step_calls st s :
  (ocr_calls (snd (_validate_step P self st s)) = ocr_calls s /\
   match_calls (snd (_validate_step P self st s)) = match_calls s) \/
  (exists c, ocr_calls (snd (_validate_step P self st s)) = ocr_calls s ++ [c] /\
     (match_calls (snd (_validate_step P self st s)) = match_calls s \/
      exists m, match_calls (snd (_validate_step P self st s)) = match_calls s ++ [m])).
Proof.
  unfold_step.
  repeat (break_match; simpl in *; try congruence);
    invert_pairs; simpl;
    first [ left; split; reflexivity
          | right; eexists; split; [reflexivity|]; left; reflexivity
          | right; eexists; split; [reflexivity|]; right; eexists; reflexivity ].
Qed.

(** A reported processing time is the difference of the step's two
    clock readings, in milliseconds. *)
Lemma validate_step_time st s t :
  processing_time_ms (fst (_validate_step P self st s)) = Some t ->
  t = ((clock P (S (time_reads s)) - clock P (time_reads s)) * 1000)%Q.
Proof.
  unfold_step.
  repeat (break_match; simpl in *; try congruence);
    invert_pairs; simpl; intros H; inversion H; reflexivity.
Qed.

(** A reported confidence is [min] of what the two collaborators returned. *)
Lemma validate_step_confidence st s q :
  confidence_score (fst (_validate_step P self st s)) = Some q ->
  exists img cfg txt e a b m c,
    ocr_engine self img cfg = inr (txt, e) /\
    string_matcher self a b = inr (m, c) /\
    q = py_min e c.
Proof.
  unfold_step.
  repeat (break_match; simpl in *; try congruence);
    invert_pairs; simpl; intros H; inversion H; subst;
    repeat eexists; eassumption.
Qed.

Lemma notify_from_notifications obs : forall i hook n s,
  notifications (notify_from i obs hook n s) =
  notifications s ++ imap (fun j _ => ((i + j)%nat, n)) obs.
Proof.
  induction obs as [|o obs IH]; intros i hook n s.
  - simpl. rewrite app_nil_r. reflexivity.
  - cbn [notify_from]. rewrite IH.
    assert (Hs : notifications
                   match hook o with
                   | Some e => logger LOG_ERROR
                                 ("Error in observer notification: " +:+ exc_str e)
                                 (record_notification (i, n) s)
                   | None => record_notification (i, n) s
                   end = notifications s ++ [(i, n)])
      by (destruct (hook o); reflexivity).
    rewrite Hs, <- app_assoc. f_equal. cbn [imap app].
    rewrite Nat.add_0_r. f_equal.
    apply imap_ext. intros j x _. simpl. f_equal. lia.
Qed.

Lemma notify_broadcast hook n s :
  notifications (notify_from 0 (_observers self) hook n s) =
  notifications s ++ broadcast self n.
Proof. rewrite notify_from_notifications. reflexivity. Qed.

(** What the loop leaves behind: one result per step, the step-complete
    calls of the results in order, and at most one extraction and one
    comparison per step. *)
Lemma validate_loop_trace steps : forall acc s,
  exists rs s',
    validate_loop P self steps acc s = (inr (acc ++ rs), s') /\
    length rs = length steps /\
    notifications s' =
      notifications s ++ concat (map (fun r => broadcast self (NStepComplete r)) rs) /\
    (length (ocr_calls s') <= length (ocr_calls s) + length steps)%nat /\
    (length (match_calls s') + length (ocr_calls s)
       <= length (match_calls s) + length (ocr_calls s'))%nat /\
    (length (ocr_calls s) <= length (ocr_calls s'))%nat.
Proof.
  induction steps as [|st steps IH]; intros acc s.
  - exists [], s. cbn [validate_loop]. unfold ret.
    rewrite !app_nil_r. simpl. repeat split; lia.
  - cbn [validate_loop]. unfold bind. rewrite validate_one_eq.
    set (r := fst (_validate_step P self st s)).
    set (s0 := snd (_validate_step P self st s)).
    set (s1 := _notify_step_complete self r s0).
    destruct (notify_from_only_reported (_observers self) 0
                (fun o => on_step_complete o r) (NStepComplete r) s0)
      as (_ & _ & _ & Hocr & Hmatch).
    fold (_notify_step_complete self r s0) in Hocr, Hmatch. fold s1 in Hocr, Hmatch.
    assert (Hn : notifications s1 = notifications s ++ broadcast self (NStepComplete r)).
    { subst s1. unfold _notify_step_complete. rewrite notify_broadcast.
      subst s0. rewrite validate_step_notifications. reflexivity. }
    destruct (IH (acc ++ [r]) s1) as (rs & s' & Hrun & Hlen & Hnot & Hbud & Hcmp & Hmono).
    exists (r :: rs), s'. rewrite Hrun, <- app_assoc.
    split; [reflexivity|]. split; [simpl; lia|].
    split; [rewrite Hnot, Hn, <- app_assoc; reflexivity|].
    rewrite Hocr, Hmatch in *.
    pose proof (validate_step_calls st s) as Hcalls. fold s0 in Hcalls.
    destruct Hcalls as [[Ho Hm]|(c & Ho & [Hm|(m & Hm)])];
      rewrite Ho, Hm in *; rewrite ?length_app in *; simpl in *; repeat split; lia.
Qed.

Lemma validate_all_success s st0 steps es cs :
  load_test_protocol (data_loader self) (protocol_file P (config self)) = inr (st0 :: steps) ->
  load_expected_strings (data_loader self) (string_map_file P (config self)) = inr es ->
  load_coordinates (data_loader self) (coordinate_file P (config self)) = inr cs ->
  forall rs s2,
    validate_loop P self (st0 :: steps) []
      (_notify_validation_start self (length (st0 :: steps))
         (after_loads (st0 :: steps) es cs s)) = (inr rs, s2) ->
    validate_all P self s =
      (inr rs, set_caches None None None (_notify_validation_complete self rs s2)).
Proof.
  intros H1 H2 H3 rs s2 Hrun.
  unfold validate_all, _load_data, load_datasets. unfold_monad.
  rewrite H1, H2, H3.
  cbn [_test_steps set_coordinates set_caches logger set_expected_strings set_test_steps].
  unfold after_loads in Hrun.
  cbn [_test_steps set_coordinates set_caches logger set_expected_strings set_test_steps]
    in Hrun.
  rewrite Hrun. reflexivity.
Qed.

End EngineTrace.

Lemma py_min_cases (a b : Q) : py_min a b = a \/ py_min a b = b.
Proof. unfold py_min. destruct (Qcompare b a); auto. Qed.

(** X1: the single-step entry point.  When the three loads return,
    [validate_step] returns the result of the per-step algorithm on the
    freshly loaded tables, for any step (listed in the protocol or not,
    and even when the protocol is empty), notifies no observer and ends
    with the caches cleared. *)
Theorem validate_step_needs_no_protocol P self st s ts es cs :
  load_test_protocol (data_loader self) (protocol_file P (config self)) = inr ts ->
  load_expected_strings (data_loader self) (string_map_file P (config self)) = inr es ->
  load_coordinates (data_loader self) (coordinate_file P (config self)) = inr cs ->
  exists r s',
    validate_step P self st s = (inr r, s') /\
    r = fst (_validate_step P self st (after_loads ts es cs s)) /\
    step r = st /\
    notifications s' = notifications s /\
    caches s' = (None, None, None).
Proof.
  intros H1 H2 H3.
  unfold validate_step, _load_data, load_datasets. unfold_monad.
  rewrite H1, H2, H3.
  fold (after_loads ts es cs s).
  destruct (_validate_step P self st (after_loads ts es cs s)) as [r s1] eqn:Hstep.
  exists r. eexists. split; [reflexivity|].
  pose proof (validate_step_step P self st (after_loads ts es cs s)) as Hst.
  pose proof (validate_step_notifications P self st (after_loads ts es cs s)) as Hn.
  rewrite Hstep in Hst, Hn. simpl in Hst, Hn.
  repeat split; [exact Hst | simpl; rewrite Hn; reflexivity].
Qed.

Lemma validate_step_needs_no_protocol_witness :
  exists r s',
    validate_step Demo.platform (Demo.engine []) Demo.s1 initial_state = (inr r, s') /\
    r = fst (_validate_step Demo.platform (Demo.engine []) Demo.s1
               (after_loads [] Demo.expected Demo.coords initial_state)) /\
    step r = Demo.s1 /\
    notifications s' = notifications initial_state /\
    caches s' = (None, None, None).
Proof.
  apply (validate_step_needs_no_protocol Demo.platform (Demo.engine []) Demo.s1
           initial_state [] Demo.expected Demo.coords); reflexivity.
Defined.

(** X2: no staleness.  Whatever the caches hold when [validate_all] is
    called, the call behaves as if they were empty: same outcome, same
    final state. *)
Theorem validate_all_ignores_old_caches P self s ts es cs :
  validate_all P self (set_caches ts es cs s) = validate_all P self s.
Proof.
  unfold validate_all, _load_data, load_datasets. unfold_monad.
  destruct (load_test_protocol _ _) as [e1|ts']; [reflexivity|].
  destruct (load_expected_strings _ _) as [e2|es']; [reflexivity|].
  destruct (load_coordinates _ _) as [e3|cs']; reflexivity.
Qed.

(** X3: what the observers of a run see.  In a run whose loads returned
    a non-empty step list, every observer receives, in registration
    order within each notification: the start with the number of steps,
    then one step-complete per result in result order, then the
    completion with the full result list; nothing else is delivered. *)
Theorem notifications_of_a_run P self s steps es cs :
  load_test_protocol (data_loader self) (protocol_file P (config self)) = inr steps ->
  load_expected_strings (data_loader self) (string_map_file P (config self)) = inr es ->
  load_coordinates (data_loader self) (coordinate_file P (config self)) = inr cs ->
  steps <> [] ->
  exists results s',
    validate_all P self s = (inr results, s') /\
    notifications s' =
      notifications s
      ++ broadcast self (NValidationStart (length steps))
      ++ concat (map (fun r => broadcast self (NStepComplete r)) results)
      ++ broadcast self (NValidationComplete results).
Proof.
  intros H1 H2 H3 Hne.
  destruct steps as [|st0 steps]; [congruence|].
  destruct (validate_loop_trace P self (st0 :: steps) []
              (_notify_validation_start self (length (st0 :: steps))
                 (after_loads (st0 :: steps) es cs s)))
    as (rs & s2 & Hrun & _ & Hnot & _).
  rewrite app_nil_l in Hrun.
  exists rs. eexists.
  split; [exact (validate_all_success P self s st0 steps es cs H1 H2 H3 rs s2 Hrun)|].
  cbn [notifications set_caches].
  unfold _notify_validation_complete. rewrite notify_broadcast, Hnot.
  unfold _notify_validation_start. rewrite notify_broadcast.
  rewrite <- !app_assoc. reflexivity.
Qed.

Lemma notifications_of_a_run_witness :
  exists results s',
    validate_all Demo.platform (Demo.engine [Demo.s1; Demo.s2]) initial_state
      = (inr results, s') /\
    notifications s' =
      notifications initial_state
      ++ broadcast (Demo.engine [Demo.s1; Demo.s2]) (NValidationStart 2)
      ++ concat (map (fun r => broadcast (Demo.engine [Demo.s1; Demo.s2]) (NStepComplete r))
                   results)
      ++ broadcast (Demo.engine [Demo.s1; Demo.s2]) (NValidationComplete results).
Proof.
  apply (notifications_of_a_run Demo.platform (Demo.engine [Demo.s1; Demo.s2])
           initial_state [Demo.s1; Demo.s2] Demo.expected Demo.coords);
    [reflexivity | reflexivity | reflexivity | discriminate].
Defined.

(** X4: the call budget of a run.  In a run whose loads returned, the
    extractor is called at most once per step and the comparator at most
    as often as the extractor. *)
Theorem run_calls_at_most_once_per_step P self s steps es cs :
  load_test_protocol (data_loader self) (protocol_file P (config self)) = inr steps ->
  load_expected_strings (data_loader self) (string_map_file P (config self)) = inr es ->
  load_coordinates (data_loader self) (coordinate_file P (config self)) = inr cs ->
  steps <> [] ->
  exists results s',
    validate_all P self s = (inr results, s') /\
    (length (ocr_calls s') <= length (ocr_calls s) + length steps)%nat /\
    (length (match_calls s') + length (ocr_calls s)
       <= length (match_calls s) + length (ocr_calls s'))%nat.
Proof.
  intros H1 H2 H3 Hne.
  destruct steps as [|st0 steps]; [congruence|].
  destruct (validate_loop_trace P self (st0 :: steps) []
              (_notify_validation_start self (length (st0 :: steps))
                 (after_loads (st0 :: steps) es cs s)))
    as (rs & s2 & Hrun & _ & _ & Hbud & Hcmp & _).
  rewrite app_nil_l in Hrun.
  exists rs. eexists.
  split; [exact (validate_all_success P self s st0 steps es cs H1 H2 H3 rs s2 Hrun)|].
  destruct (notify_from_only_reported (_observers self) 0
              (fun o => on_validation_complete o rs) (NValidationComplete rs) s2)
    as (_ & _ & _ & Ho2 & Hm2).
  destruct (notify_from_only_reported (_observers self) 0
              (fun o => on_validation_start o (length (st0 :: steps)))
              (NValidationStart (length (st0 :: steps)))
              (after_loads (st0 :: steps) es cs s))
    as (_ & _ & _ & Ho1 & Hm1).
  fold (_notify_validation_complete self rs s2) in Ho2, Hm2.
  fold (_notify_validation_start self (length (st0 :: steps))
          (after_loads (st0 :: steps) es cs s)) in Ho1, Hm1.
  cbn [ocr_calls match_calls set_caches].
  rewrite Ho2, Hm2. rewrite Ho1 in Hbud, Hcmp. rewrite Hm1 in Hcmp.
  split; [exact Hbud | exact Hcmp].
Qed.

Lemma run_calls_at_most_once_per_step_witness :
  exists results s',
    validate_all Demo.platform (Demo.engine [Demo.s1; Demo.s2; Demo.s3; Demo.s4])
      initial_state = (inr results, s') /\
    (length (ocr_calls s') <= length (ocr_calls initial_state) + 4)%nat /\
    (length (match_calls s') + length (ocr_calls initial_state)
       <= length (match_calls initial_state) + length (ocr_calls s'))%nat.
Proof.
  apply (run_calls_at_most_once_per_step Demo.platform
           (Demo.engine [Demo.s1; Demo.s2; Demo.s3; Demo.s4]) initial_state
           [Demo.s1; Demo.s2; Demo.s3; Demo.s4] Demo.expected Demo.coords);
    [reflexivity | reflexivity | reflexivity | discriminate].
Defined.



(** X6: confidences stay in the unit interval.  If the extractor and
    the comparator only return confidences in [0, 1], every confidence
    the per-step algorithm reports lies in [0, 1]. *)
Theorem reported_confidence_in_unit_interval P self st s q :
  (forall img cfg txt e, ocr_engine self img cfg = inr (txt, e) -> in_unit e) ->
  (forall a b m c, string_matcher self a b = inr (m, c) -> in_unit c) ->
  confidence_score (fst (_validate_step P self st s)) = Some q ->
  in_unit q.
Proof.
  intros Hocr Hmatch Hq.
  destruct (validate_step_confidence P self st s q Hq)
    as (img & cfg & txt & e & a & b & m & c & He & Hc & ->).
  destruct (py_min_cases e c) as [->| ->]; [eapply Hocr | eapply Hmatch]; eassumption.
Qed.

Lemma reported_confidence_in_unit_interval_witness : in_unit (95 # 100).
Proof.
  apply (reported_confidence_in_unit_interval Demo.platform (Demo.engine []) Demo.s1
           Demo.loaded (95 # 100)).
  - intros img cfg txt e H. inversion H. unfold in_unit, Qle. simpl. lia.
  - intros a b m c H. unfold Demo.engine, Demo.matcher in H. simpl in H.
    destruct (String.eqb a b); inversion H; unfold in_unit, Qle; simpl; lia.
  - reflexivity.
Defined.

(** X7: processing times are not negative.  With a clock that never
    goes back between two consecutive readings, every processing time
    the per-step algorithm reports is at least 0. *)
Theorem reported_time_is_not_negative P self st s t :
  (forall n, (clock P n <= clock P (S n))%Q) ->
  processing_time_ms (fst (_validate_step P self st s)) = Some t ->
  (0 <= t)%Q.
Proof.
  intros Hclock Ht.
  rewrite (validate_step_time P self st s t Ht).
  apply Qmult_le_0_compat; [|discriminate].
  pose proof (Hclock (time_reads s)) as H.
  apply (Qplus_le_l _ _ (clock P (time_reads s))). ring_simplify. exact H.
Qed.

Lemma reported_time_is_not_negative_witness : (0 <= 1000)%Q.
Proof.
  apply (reported_time_is_not_negative Demo.platform (Demo.engine []) Demo.s1 Demo.loaded 1000).
  - intros n. unfold Qle. simpl. lia.
  - reflexivity.
Defined.

(** X8: which load failure is reported.  When a load fails,
    [validate_all] raises a [ValidationError] whose message is
    "Data loading failed: " followed by the message of the first failing
    load, in the order protocol, expected strings, coordinates. *)
Theorem first_failing_load_is_reported P self s e :
  first_failure P self = Some e ->
  fst (validate_all P self s) =
    inl (Exc ValidationError ("Data loading failed: " +:+ exc_str e)).
Proof.
  unfold first_failure, validate_all, _load_data, load_datasets. unfold_monad.
  destruct (load_test_protocol _ _) as [e1|ts]; simpl.
  { intros H; inversion H; reflexivity. }
  destruct (load_expected_strings _ _) as [e2|es]; simpl.
  { intros H; inversion H; reflexivity. }
  destruct (load_coordinates _ _) as [e3|cs]; simpl.
  { intros H; inversion H; reflexivity. }
  discriminate.
Qed.

Lemma first_failing_load_is_reported_witness :
  fst (validate_all Demo.platform Demo.unloadable_engine initial_state) =
    inl (Exc ValidationError
           ("Data loading failed: " +:+
            "Expected strings file not found: data/expected_strings/en-US.json")).
Proof.
  apply (first_failing_load_is_reported Demo.platform Demo.unloadable_engine initial_state
           (Exc DataLoadError
              "Expected strings file not found: data/expected_strings/en-US.json")).
  reflexivity.
Defined.

(** * Further properties of the summary *)

Lemma count_results_partition rs :
  (count_result PASS rs + count_result FAIL rs + count_result ERROR rs
   + count_result MISSING_IMAGE rs + count_result MISSING_COORDINATES rs
   = length rs)%nat.
Proof.
  unfold count_result.
  induction rs as [|r rs IH]; [reflexivity|].
  cbn [List.filter]. destruct (match_result r); cbn [MatchResult_eqb length] in *; lia.
Qed.

Lemma sum_between (lo hi : Q) (xs : list Q) :
  (forall x, In x xs -> (lo <= x <= hi)%Q) ->
  (inject_Z (Z.of_nat (length xs)) * lo <= fold_right Qplus 0 xs
   /\ fold_right Qplus 0 xs <= inject_Z (Z.of_nat (length xs)) * hi)%Q.
Proof.
  induction xs as [|x xs IH]; intros Hall.
  - cbn [length fold_right]. change (inject_Z (Z.of_nat 0)) with 0%Q.
    rewrite !Qmult_0_l. split; apply Qle_refl.
  - destruct IH as [IHlo IHhi]; [intros y Hy; apply Hall; right; exact Hy|].
    destruct (Hall x (or_introl eq_refl)) as [Hlo Hhi].
    cbn [length fold_right].
    rewrite Nat2Z.inj_succ. unfold Z.succ. rewrite inject_Z_plus.
    split.
    + assert (E : ((inject_Z (Z.of_nat (length xs)) + inject_Z 1) * lo
                   == lo + inject_Z (Z.of_nat (length xs)) * lo)%Q) by ring.
      rewrite E. apply Qplus_le_compat; assumption.
    + assert (E : ((inject_Z (Z.of_nat (length xs)) + inject_Z 1) * hi
                   == hi + inject_Z (Z.of_nat (length xs)) * hi)%Q) by ring.
      rewrite E. apply Qplus_le_compat; assumption.
Qed.

Lemma mean_between (lo hi : Q) (xs : list Q) :
  xs <> [] ->
  (forall x, In x xs -> (lo <= x <= hi)%Q) ->
  (lo <= mean xs <= hi)%Q.
Proof.
  intros Hne Hall.
  destruct xs as [|x xs]; [congruence|].
  destruct (sum_between lo hi (x :: xs) Hall) as [Hlo Hhi].
  assert (Hpos : (0 < inject_Z (Z.of_nat (length (x :: xs))))%Q).
  { rewrite <- (Zlt_Qlt 0). simpl. lia. }
  unfold mean. split.
  - apply Qle_shift_div_l; [exact Hpos|]. rewrite Qmult_comm. exact Hlo.
  - apply Qle_shift_div_r; [exact Hpos|]. rewrite Qmult_comm. exact Hhi.
Qed.

(** X9: the five counts of a summary add up to its total. *)
Theorem summary_counts_add_up rs :
  let sm := get_validation_summary rs in
  (passed sm + failed sm + errors sm + missing_images sm + missing_coordinates sm
   = total_steps sm)%nat /\
  total_steps sm = length rs.
Proof.
  destruct rs as [|r rs]; [split; reflexivity|].
  cbn [get_validation_summary passed failed errors missing_images missing_coordinates
       total_steps].
  split; [apply count_results_partition | reflexivity].
Qed.

(** X10: the pass rate of a summary is a percentage, between 0 and 100. *)
Theorem pass_rate_is_a_percentage rs :
  (0 <= pass_rate (get_validation_summary rs) <= 100)%Q.
Proof.
  destruct rs as [|r rs]; [split; discriminate|].
  set (l := r :: rs).
  assert (Hpos : (0 < py_len l)%Q).
  { unfold py_len. rewrite <- (Zlt_Qlt 0). subst l. simpl. lia. }
  assert (Hp : (count_result PASS l <= length l)%nat).
  { pose proof (count_results_partition l). lia. }
  unfold get_validation_summary. subst l. cbn [pass_rate].
  set (l := r :: rs) in *.
  split.
  - apply Qmult_le_0_compat; [|discriminate].
    apply Qle_shift_div_l; [exact Hpos|].
    rewrite Qmult_0_l. rewrite <- (Zle_Qle 0). lia.
  - apply (Qle_trans _ (1 * 100)%Q); [|discriminate].
    apply Qmult_le_compat_r; [|discriminate].
    apply Qle_shift_div_r; [exact Hpos|].
    rewrite Qmult_1_l. unfold py_len. rewrite <- Zle_Qle. lia.
Qed.

(** X11: averages of unit-interval confidences stay in the unit
    interval.  If every confidence carried by the results lies in
    [0, 1], so does the summary's average confidence. *)
Theorem average_confidence_in_unit_interval rs :
  (forall r q, In r rs -> confidence_score r = Some q -> in_unit q) ->
  in_unit (average_confidence (get_validation_summary rs)).
Proof.
  intros Hall.
  assert (Hmean : in_unit (mean (present confidence_score rs))).
  { destruct (present confidence_score rs) as [|x xs] eqn:Hp.
    - split; discriminate.
    - rewrite <- Hp. apply mean_between; [rewrite Hp; discriminate|].
      intros y Hy. apply list_elem_of_In in Hy.
      unfold present in Hy. apply list_elem_of_omap in Hy.
      destruct Hy as (r0 & Hr0 & Hq). apply list_elem_of_In in Hr0.
      exact (Hall r0 y Hr0 Hq). }
  unfold in_unit in *.
  destruct rs as [|r rs]; [split; discriminate|].
  unfold get_validation_summary. cbn [average_confidence].
  rewrite (average_is_mean confidence_score (r :: rs)). exact Hmean.
Qed.

Lemma average_confidence_in_unit_interval_witness :
  in_unit (average_confidence (get_validation_summary Demo.results)).
Proof.
  apply (average_confidence_in_unit_interval Demo.results).
  intros r q [<-|[<-|[<-|[]]]] Hq; inversion Hq; unfold in_unit, Qle; simpl; lia.
Defined.

Lemma count_PASS_is_successful rs :
  count_result PASS rs = length (List.filter is_successful rs).
Proof.
  unfold count_result.
  induction rs as [|r rs IH]; [reflexivity|].
  cbn [List.filter]. unfold is_successful at 1.
  destruct (match_result r); cbn [MatchResult_eqb length]; rewrite IH; reflexivity.
Qed.

Lemma no_value_no_filter {A} (f : ValidationResult -> option A) rs :
  present f rs = [] -> List.filter (fun r => is_not_None (f r)) rs = [].
Proof.
  unfold present.
  induction rs as [|r rs IH]; [reflexivity|].
  cbn [omap list_omap List.filter].
  destruct (f r); cbn [is_not_None]; [discriminate | exact IH].
Qed.

(** X28: the summary where no arithmetic is involved.  The summary of
    no result is all zeros; the passes counted are the successful
    results; an average is the literal 0 when no result carries the
    value, whatever the classifications. *)
Theorem summary_without_values rs :
  get_validation_summary [] = mkSummary 0 0 0 0 0 0 0 0 0 /\
  passed (get_validation_summary rs) = length (List.filter is_successful rs) /\
  (present confidence_score rs = [] ->
     average_confidence (get_validation_summary rs) = 0%Q) /\
  (present processing_time_ms rs = [] ->
     average_processing_time_ms (get_validation_summary rs) = 0%Q).
Proof.
  split; [reflexivity|].
  destruct rs as [|r rs]; [repeat split|].
  set (l := r :: rs).
  split; [|split].
  - unfold get_validation_summary. subst l. cbn [passed].
    apply count_PASS_is_successful.
  - intros Hnone. unfold get_validation_summary. subst l. cbn [average_confidence].
    rewrite (no_value_no_filter confidence_score (r :: rs) Hnone). reflexivity.
  - intros Hnone. unfold get_validation_summary. subst l. cbn [average_processing_time_ms].
    rewrite (no_value_no_filter processing_time_ms (r :: rs) Hnone). reflexivity.
Qed.

Lemma summary_without_values_witness :
  average_confidence (get_validation_summary Samples.unread) = 0%Q /\
  average_processing_time_ms (get_validation_summary Samples.unread) = 0%Q /\
  passed (get_validation_summary Demo.results) = 1%nat.
Proof.
  destruct (summary_without_values Samples.unread) as (_ & _ & Hconf & Htime).
  split; [exact (Hconf eq_refl)|]. split; [exact (Htime eq_refl)|].
  destruct (summary_without_values Demo.results) as (_ & Hp & _).
  rewrite Hp. reflexivity.
Defined.

(** * Further properties of the coordinate loader *)

Section LoaderMore.

Variable int : string -> option Z.
Variable strip : string -> string.
Variable repr_cols : list string -> string.
Variable read_csv : string -> option (exn + CSVDataLoader.CsvFile).

Local Abbreviation parse_row := (CSVDataLoader.parse_row int strip).
Local Abbreviation load_rows := (CSVDataLoader.load_rows int strip).
Local Abbreviation load_coordinates :=
  (CSVDataLoader.load_coordinates int strip repr_cols read_csv).

Lemma parse_row_valid n row k c :
  parse_row n row = CSVDataLoader.Entry k c -> valid_box c.
Proof.
  unfold CSVDataLoader.parse_row.
  repeat (break_match; try discriminate).
  intros H. inversion H; subst. unfold valid_box. cbn [left top right bottom].
  repeat match goal with
         | H : (_ || _)%bool = false |- _ => apply orb_false_elim in H; destruct H
         | H : existsb _ _ = false |- _ => cbn [existsb] in H
         end.
  rewrite Z.geb_leb in *.
  repeat match goal with
         | H : (_ <=? _) = false |- _ => apply Z.leb_gt in H
         | H : (_ <? _) = false |- _ => apply Z.ltb_ge in H
         end.
  lia.
Qed.

Lemma load_rows_valid rs : forall n m ev,
  (forall k c, m !! k = Some c -> valid_box c) ->
  forall k c, fst (load_rows n rs m ev) !! k = Some c -> valid_box c.
Proof.
  induction rs as [|r rs IH]; intros n m ev Hm; [exact Hm|].
  cbn [CSVDataLoader.load_rows].
  destruct (parse_row n r) as [e|k' c'] eqn:Hrow; [apply IH; exact Hm|].
  apply IH. intros k c Hk.
  apply lookup_insert_Some in Hk. destruct Hk as [[_ <-]|[_ Hk]].
  - exact (parse_row_valid n r k' c' Hrow).
  - exact (Hm k c Hk).
Qed.

Lemma load_rows_domain rs : forall n m ev k,
  is_Some (fst (load_rows n rs m ev) !! k) <->
  is_Some (m !! k) \/ exists r c, In r rs /\ row_entry int strip r = Some (k, c).
Proof.
  induction rs as [|r rs IH]; intros n m ev k.
  - simpl. split; [auto|]. intros [H|(r & c & [] & _)]. exact H.
  - cbn [CSVDataLoader.load_rows].
    pose proof (parse_row_entry int strip n r) as Hrow.
    destruct (parse_row n r) as [e|k' c'].
    + rewrite IH. split.
      * intros [H|(r' & c & Hin & He)]; [left; exact H|].
        right. exists r', c. split; [right; exact Hin | exact He].
      * intros [H|(r' & c & [<-|Hin] & He)]; [left; exact H | congruence |].
        right. exists r', c. split; assumption.
    + rewrite IH. split.
      * intros [H|(r' & c & Hin & He)].
        -- destruct (decide (k' = k)) as [->|Hne].
           ++ right. exists r, c'. split; [left; reflexivity | symmetry; exact Hrow].
           ++ left. rewrite lookup_insert_ne in H by exact Hne. exact H.
        -- right. exists r', c. split; [right; exact Hin | exact He].
      * intros [H|(r' & c & [<-|Hin] & He)].
        -- left. destruct (decide (k' = k)) as [->|Hne].
           ++ rewrite lookup_insert_eq. eexists; reflexivity.
           ++ rewrite lookup_insert_ne by exact Hne. exact H.
        -- left. rewrite He in Hrow. inversion Hrow; subst.
           rewrite lookup_insert_eq. eexists; reflexivity.
        -- right. exists r', c. split; assumption.
Qed.

Lemma load_rows_all_skipped rs : forall n m ev,
  (forall r, In r rs -> row_entry int strip r = None) ->
  fst (load_rows n rs m ev) = m /\
  length (snd (load_rows n rs m ev)) = (length ev + length rs)%nat.
Proof.
  induction rs as [|r rs IH]; intros n m ev Hall.
  - simpl. split; [reflexivity | lia].
  - cbn [CSVDataLoader.load_rows].
    pose proof (parse_row_entry int strip n r) as Hrow.
    rewrite (Hall r (or_introl eq_refl)) in Hrow.
    destruct (parse_row n r) as [e|k' c']; [|discriminate Hrow].
    destruct (IH (S n) m (ev ++ [e])) as [Hm Hlen];
      [intros r' Hin; apply Hall; right; exact Hin|].
    split; [exact Hm|]. rewrite Hlen, length_app. simpl. lia.
Qed.

Lemma parse_row_skip_not_duplicate n row e :
  parse_row n row = CSVDataLoader.Skip e -> is_duplicate_event e = false.
Proof.
  unfold CSVDataLoader.parse_row.
  repeat (break_match; try discriminate); intros H; inversion H; reflexivity.
Qed.

Lemma load_rows_accounting rs : forall n m ev,
  (size (fst (load_rows n rs m ev))
   + length (List.filter is_duplicate_event (snd (load_rows n rs m ev)))
   = size m + length (List.filter is_duplicate_event ev)
     + length (List.filter (fun r => is_not_None (row_entry int strip r)) rs))%nat.
Proof.
  induction rs as [|r rs IH]; intros n m ev.
  - simpl. lia.
  - cbn [CSVDataLoader.load_rows List.filter].
    pose proof (parse_row_entry int strip n r) as Hrow.
    destruct (parse_row n r) as [e|k' c'] eqn:Hp; rewrite <- Hrow; cbn [is_not_None].
    + rewrite IH. rewrite List.filter_app, length_app. cbn [List.filter].
      rewrite (parse_row_skip_not_duplicate n r e Hp). simpl. lia.
    + rewrite IH. cbn [length].
      destruct (m !! k') as [c0|] eqn:Hk.
      * rewrite map_size_insert_Some by (rewrite Hk; eexists; reflexivity).
        rewrite List.filter_app, length_app. simpl. lia.
      * rewrite map_size_insert_None by exact Hk. lia.
Qed.

End LoaderMore.

(** What a returning [load_coordinates] was computed from. *)
Lemma load_coordinates_returns int strip repr_cols read_csv path idx events :
  CSVDataLoader.load_coordinates int strip repr_cols read_csv path = (inr idx, events) ->
  exists f evs,
    read_csv path = Some (inr f) /\
    CSVDataLoader.has_required f = true /\
    CSVDataLoader.load_rows int strip 2 (CSVDataLoader.rows f) ∅ [] = (idx, evs) /\
    events = evs ++ [CSVDataLoader.Loaded (size idx)] /\
    idx <> ∅.
Proof.
  unfold CSVDataLoader.load_coordinates.
  destruct (read_csv path) as [[e|f]|]; try discriminate.
  destruct (CSVDataLoader.has_required f) eqn:Hcols; cbn [negb]; [|discriminate].
  destruct (CSVDataLoader.load_rows int strip 2 (CSVDataLoader.rows f) ∅ [])
    as [m evs] eqn:Hrows.
  destruct (bool_decide (m = ∅)) eqn:Hm; [discriminate|].
  intros H. inversion H; subst.
  exists f, evs.
  split; [reflexivity|]. split; [exact Hcols|]. split; [exact Hrows|].
  split; [reflexivity|].
  apply bool_decide_eq_false in Hm. exact Hm.
Qed.

(** X12: every loaded box is a proper box.  Each coordinate of a
    returned index has [0 <= left < right] and [0 <= top < bottom], hence
    a positive width, height and area. *)
Theorem loaded_boxes_are_valid int strip repr_cols read_csv path k c :
  lookup_loaded
    (fst (CSVDataLoader.load_coordinates int strip repr_cols read_csv path)) k = Some c ->
  valid_box c /\ 0 < width c /\ 0 < height c /\ 0 < area c.
Proof.
  destruct (CSVDataLoader.load_coordinates int strip repr_cols read_csv path)
    as [[e|idx] events] eqn:Hload; cbn [fst lookup_loaded]; [discriminate|].
  intros Hk.
  destruct (load_coordinates_returns _ _ _ _ _ _ _ Hload) as (f & evs & _ & _ & Hrows & _ & _).
  assert (Hv : valid_box c).
  { apply (load_rows_valid int strip (CSVDataLoader.rows f) 2 ∅ []) with (k := k).
    - intros k0 c0 H0. rewrite lookup_empty in H0. discriminate H0.
    - rewrite Hrows. exact Hk. }
  split; [exact Hv|]. unfold valid_box in Hv. unfold area, width, height. nia.
Qed.

Lemma loaded_boxes_are_valid_witness :
  valid_box (mkCoordinate 30 40 130 80) /\ 0 < width (mkCoordinate 30 40 130 80) /\
  0 < height (mkCoordinate 30 40 130 80) /\ 0 < area (mkCoordinate 30 40 130 80).
Proof.
  apply (loaded_boxes_are_valid Demo.int Demo.strip Demo.repr_cols Demo.read_csv
           "data/string_coordinates.csv" ("S1", "ScreenA", "greeting")).
  vm_compute. reflexivity.
Defined.

(** X13: which keys a table gives.  For a readable table with the
    required columns, a key gets a coordinate from the load exactly when
    some row of the table is valid and carries that key. *)
Theorem loaded_keys_are_those_of_valid_rows int strip repr_cols read_csv path f k :
  read_csv path = Some (inr f) ->
  CSVDataLoader.has_required f = true ->
  is_Some (lookup_loaded
             (fst (CSVDataLoader.load_coordinates int strip repr_cols read_csv path)) k)
  <-> exists r c, In r (CSVDataLoader.rows f) /\ row_entry int strip r = Some (k, c).
Proof.
  intros Hread Hcols.
  pose proof (load_rows_domain int strip (CSVDataLoader.rows f) 2 ∅ [] k) as Hdom.
  unfold CSVDataLoader.load_coordinates. rewrite Hread, Hcols. cbn [negb].
  destruct (CSVDataLoader.load_rows int strip 2 (CSVDataLoader.rows f) ∅ []) as [m evs].
  cbn [fst] in Hdom.
  assert (Hrhs : is_Some (m !! k) <->
                 exists r c, In r (CSVDataLoader.rows f) /\ row_entry int strip r = Some (k, c)).
  { rewrite Hdom. split; [|auto].
    intros [H|H]; [|exact H]. rewrite lookup_empty in H. destruct H; discriminate. }
  destruct (bool_decide (m = ∅)) eqn:Hm; cbn [fst lookup_loaded]; [|exact Hrhs].
  apply bool_decide_eq_true in Hm. rewrite <- Hrhs. subst m. rewrite lookup_empty.
  split; intros [x Hx]; discriminate.
Qed.

Lemma loaded_keys_are_those_of_valid_rows_witness :
  is_Some (lookup_loaded
             (fst (CSVDataLoader.load_coordinates Demo.int Demo.strip Demo.repr_cols
                     Demo.read_csv "data/string_coordinates.csv"))
             ("S2", "ScreenB", "greeting"))
  <-> exists r c, In r (CSVDataLoader.rows Demo.table) /\
                  row_entry Demo.int Demo.strip r = Some ("S2", "ScreenB", "greeting", c).
Proof.
  apply (loaded_keys_are_those_of_valid_rows Demo.int Demo.strip Demo.repr_cols
           Demo.read_csv "data/string_coordinates.csv" Demo.table); reflexivity.
Defined.

(** X14: how a coordinate load can end.  [load_coordinates] either
    raises a [DataLoadError] or returns an index with at least one
    entry; it never returns an empty index and never lets another class
    of exception out. *)
Theorem load_coordinates_fails_or_is_not_empty int strip repr_cols read_csv path :
  match fst (CSVDataLoader.load_coordinates int strip repr_cols read_csv path) with
  | inl e => exc_class e = DataLoadError
  | inr idx => idx <> ∅
  end.
Proof.
  destruct (CSVDataLoader.load_coordinates int strip repr_cols read_csv path)
    as [[e|idx] events] eqn:Hload; cbn [fst].
  - unfold CSVDataLoader.load_coordinates in Hload.
    destruct (read_csv path) as [[e0|f]|].
    + inversion Hload. unfold CSVDataLoader.as_load_error.
      destruct (exc_class e0) eqn:Hc; try reflexivity. exact Hc.
    + destruct (negb (CSVDataLoader.has_required f)); [inversion Hload; reflexivity|].
      destruct (CSVDataLoader.load_rows int strip 2 (CSVDataLoader.rows f) ∅ []) as [m evs].
      destruct (bool_decide (m = ∅)); inversion Hload; reflexivity.
    + inversion Hload. reflexivity.
  - destruct (load_coordinates_returns _ _ _ _ _ _ _ Hload) as (_ & _ & _ & _ & _ & _ & Hne).
    exact Hne.
Qed.

(** X15: a table without a valid row.  When the file is readable and
    has the required columns but no row is valid (an empty table
    included), the load raises "No valid coordinates found in file",
    having logged one record per row. *)
Theorem table_without_valid_row_is_an_error int strip repr_cols read_csv path f :
  read_csv path = Some (inr f) ->
  CSVDataLoader.has_required f = true ->
  (forall r, In r (CSVDataLoader.rows f) -> row_entry int strip r = None) ->
  fst (CSVDataLoader.load_coordinates int strip repr_cols read_csv path)
    = inl (Exc DataLoadError "No valid coordinates found in file") /\
  length (snd (CSVDataLoader.load_coordinates int strip repr_cols read_csv path))
    = length (CSVDataLoader.rows f).
Proof.
  intros Hread Hcols Hnone.
  destruct (load_rows_all_skipped int strip (CSVDataLoader.rows f) 2 ∅ [] Hnone)
    as [Hm Hlen].
  unfold CSVDataLoader.load_coordinates. rewrite Hread, Hcols. cbn [negb].
  destruct (CSVDataLoader.load_rows int strip 2 (CSVDataLoader.rows f) ∅ []) as [m evs].
  cbn [fst snd] in Hm, Hlen. subst m.
  rewrite bool_decide_eq_true_2 by reflexivity.
  split; [reflexivity | exact Hlen].
Qed.

(** X16: every valid row is accounted for.  For a readable table with
    the required columns, the number of entries of the returned index
    plus the number of duplicate warnings equals the number of valid
    rows. *)
Theorem valid_rows_are_entries_or_duplicates int strip repr_cols read_csv path f :
  read_csv path = Some (inr f) ->
  CSVDataLoader.has_required f = true ->
  (index_size (fst (CSVDataLoader.load_coordinates int strip repr_cols read_csv path))
   + length (List.filter is_duplicate_event
               (snd (CSVDataLoader.load_coordinates int strip repr_cols read_csv path)))
   = length (List.filter (fun r => is_not_None (row_entry int strip r))
               (CSVDataLoader.rows f)))%nat.
Proof.
  intros Hread Hcols.
  pose proof (load_rows_accounting int strip (CSVDataLoader.rows f) 2 ∅ []) as Hacc.
  unfold CSVDataLoader.load_coordinates. rewrite Hread, Hcols. cbn [negb].
  destruct (CSVDataLoader.load_rows int strip 2 (CSVDataLoader.rows f) ∅ []) as [m evs].
  cbn [fst snd] in Hacc. rewrite map_size_empty in Hacc. cbn [List.filter length] in Hacc.
  destruct (bool_decide (m = ∅)) eqn:Hm; cbn [fst snd index_size].
  - apply bool_decide_eq_true in Hm. subst m. rewrite map_size_empty in Hacc. exact Hacc.
  - rewrite List.filter_app, length_app. cbn [List.filter is_duplicate_event length]. lia.
Qed.

Lemma valid_rows_are_entries_or_duplicates_witness :
  (index_size (fst (CSVDataLoader.load_coordinates Demo.int Demo.strip Demo.repr_cols
                      Demo.read_csv "data/triple.csv"))
   + length (List.filter is_duplicate_event
               (snd (CSVDataLoader.load_coordinates Demo.int Demo.strip Demo.repr_cols
                       Demo.read_csv "data/triple.csv")))
   = length (List.filter (fun r => is_not_None (row_entry Demo.int Demo.strip r))
               (CSVDataLoader.rows Demo.triple)))%nat.
Proof.
  apply (valid_rows_are_entries_or_duplicates Demo.int Demo.strip Demo.repr_cols
           Demo.read_csv "data/triple.csv" Demo.triple); reflexivity.
Defined.

Lemma table_without_valid_row_is_an_error_witness :
  fst (CSVDataLoader.load_coordinates Demo.int Demo.strip Demo.repr_cols Samples.read_bad
         "data/string_coordinates.csv")
    = inl (Exc DataLoadError "No valid coordinates found in file") /\
  length (snd (CSVDataLoader.load_coordinates Demo.int Demo.strip Demo.repr_cols
                 Samples.read_bad "data/string_coordinates.csv"))
    = length (CSVDataLoader.rows Samples.bad_table).
Proof.
  apply (table_without_valid_row_is_an_error Demo.int Demo.strip Demo.repr_cols
           Samples.read_bad "data/string_coordinates.csv" Samples.bad_table);
    [reflexivity | reflexivity |].
  intros r [<-|[]]. vm_compute. reflexivity.
Defined.

(** * Properties of the protocol loader *)

Section ProtocolFacts.

Variable strip : string -> string.

Lemma protocol_parse_row_step n row :
  match CSVProtocol.parse_row strip n row with
  | inr st => Some st
  | inl _ => None
  end = row_step strip row.
Proof.
  unfold row_step, CSVProtocol.parse_row.
  repeat (break_match; try reflexivity; try congruence).
Qed.

Lemma protocol_load_rows rs : forall n steps ev,
  fst (CSVProtocol.load_rows strip n rs steps ev) = steps ++ omap (row_step strip) rs.
Proof.
  induction rs as [|r rs IH]; intros n steps ev.
  - simpl. rewrite app_nil_r. reflexivity.
  - cbn [CSVProtocol.load_rows omap list_omap].
    rewrite <- (protocol_parse_row_step n r).
    destruct (CSVProtocol.parse_row strip n r) as [e|st]; rewrite IH; [reflexivity|].
    rewrite <- app_assoc. reflexivity.
Qed.

(** The ids of a step read from a row are not empty. *)
Lemma row_step_fields row st :
  row_step strip row = Some st ->
  step_id st <> EmptyString /\ screen_id st <> EmptyString /\
  expected_string_id st <> EmptyString.
Proof.
  unfold row_step, CSVProtocol.parse_row, CSVProtocol.required_columns,
    CSVDataLoader.all_present, CSVDataLoader.row_get, CSVDataLoader.row_item.
  cbn [default].
  repeat (break_match; cbn [default] in *; try discriminate).
  intros H; inversion H; subst; cbn [step_id screen_id expected_string_id].
  unfold id in *.
  repeat match goal with
         | H : Some _ = Some _ |- _ => inversion H; subst; clear H
         end.
  repeat split; intros E; rewrite E in *; discriminate.
Qed.

(** The parser reads a row as its three columns say: the stripped
    identifiers when all three are present and none is blank. *)
Lemma row_step_expected row : row_step strip row = expected_step strip row.
Proof.
  unfold row_step, expected_step, CSVProtocol.parse_row, CSVProtocol.required_columns,
    CSVDataLoader.all_present, CSVDataLoader.row_get, CSVDataLoader.row_item.
  destruct (row !! "StepID") as [[a|]|];
    destruct (row !! "ScreenID") as [[b|]|];
    destruct (row !! "ExpectedStringID") as [[c|]|];
    cbn [default]; unfold id;
    repeat match goal with
           | |- context [str_falsy ?x] => destruct (str_falsy x); cbn [orb]
           end;
    reflexivity.
Qed.

Lemma omap_row_step (rs : list (gmap string (option string))) :
  omap (row_step strip) rs = omap (expected_step strip) rs.
Proof.
  induction rs as [|r rs IH]; [reflexivity|].
  cbn [omap list_omap]. rewrite row_step_expected, IH. reflexivity.
Qed.

End ProtocolFacts.

(** X17: what a protocol load returns.  For a readable file with the
    required columns, [load_test_protocol] returns, in row order, one
    step for each row whose StepID, ScreenID and ExpectedStringID are all
    present and not blank, with the stripped StepID as step id, the
    stripped ScreenID as screen id and the stripped ExpectedStringID as
    expected-string id; it raises "No valid test steps found in protocol
    file" when there is no such row. *)
Theorem protocol_steps_follow_row_order strip repr_cols read_csv path f :
  read_csv path = Some (inr f) ->
  CSVProtocol.has_required f = true ->
  fst (CSVProtocol.load_test_protocol strip repr_cols read_csv path) =
    match omap (expected_step strip) (CSVDataLoader.rows f) with
    | [] => inl (Exc DataLoadError "No valid test steps found in protocol file")
    | st :: steps => inr (st :: steps)
    end.
Proof.
  intros Hread Hcols.
  pose proof (protocol_load_rows strip (CSVDataLoader.rows f) 2 [] []) as Hrows.
  rewrite omap_row_step in Hrows.
  unfold CSVProtocol.load_test_protocol. rewrite Hread, Hcols. cbn [negb].
  destruct (CSVProtocol.load_rows strip 2 (CSVDataLoader.rows f) [] []) as [steps evs].
  cbn [fst app] in Hrows. rewrite <- Hrows.
  destruct steps; reflexivity.
Qed.

Lemma protocol_steps_follow_row_order_witness :
  fst (CSVProtocol.load_test_protocol Demo.strip Demo.repr_cols Samples.read_protocol
         "data/test_protocol.csv") =
    inr [mkTestStep "S1" "ScreenA" "greeting"; mkTestStep "S3" "ScreenA" "farewell"].
Proof.
  rewrite (protocol_steps_follow_row_order Demo.strip Demo.repr_cols Samples.read_protocol
             "data/test_protocol.csv" Samples.protocol_table); reflexivity.
Defined.

(** X18: how a protocol load can end.  [load_test_protocol] either
    raises a [DataLoadError] or returns a non-empty list of steps whose
    three identifiers are all non-empty. *)
Theorem protocol_load_fails_or_gives_proper_steps strip repr_cols read_csv path :
  match fst (CSVProtocol.load_test_protocol strip repr_cols read_csv path) with
  | inl e => exc_class e = DataLoadError
  | inr steps =>
      steps <> [] /\
      Forall (fun st => step_id st <> EmptyString /\ screen_id st <> EmptyString /\
                        expected_string_id st <> EmptyString) steps
  end.
Proof.
  unfold CSVProtocol.load_test_protocol.
  destruct (read_csv path) as [[e0|f]|]; cbn [fst].
  - unfold CSVProtocol.as_load_error.
    destruct (exc_class e0) eqn:Hc; try reflexivity. exact Hc.
  - destruct (negb (CSVProtocol.has_required f)); [reflexivity|].
    pose proof (protocol_load_rows strip (CSVDataLoader.rows f) 2 [] []) as Hrows.
    destruct (CSVProtocol.load_rows strip 2 (CSVDataLoader.rows f) [] []) as [steps evs].
    cbn [fst app] in Hrows.
    destruct steps as [|st steps]; cbn [fst]; [reflexivity|].
    split; [discriminate|].
    rewrite Hrows. apply Forall_forall. intros x Hx.
    apply list_elem_of_omap in Hx. destruct Hx as (row & _ & Hrow).
    exact (row_step_fields strip row x Hrow).
  - reflexivity.
Qed.

(** * From the annotation tool to the loader *)

Section AnnotationRoundTrip.

Variable int : string -> option Z.
Variable strip : string -> string.
Variable str_int : Z -> string.

Lemma dict_row_lookup f1 f2 f3 f4 f5 f6 f7 :
  let row := dict_row annotation_header [f1; f2; f3; f4; f5; f6; f7] in
  row !! "StepID" = Some (Some f1) /\ row !! "ScreenID" = Some (Some f2) /\
  row !! "ExpectedStringID" = Some (Some f3) /\ row !! "Left" = Some (Some f4) /\
  row !! "Top" = Some (Some f5) /\ row !! "Right" = Some (Some f6) /\
  row !! "Bottom" = Some (Some f7).
Proof. repeat split; vm_compute; reflexivity. Qed.

Lemma annotation_row_parses n a :
  valid_box (ann_coordinate a) ->
  Forall (prints_back int strip str_int)
    [left (ann_coordinate a); top (ann_coordinate a);
     right (ann_coordinate a); bottom (ann_coordinate a)] ->
  str_falsy (strip (ann_step_id a)) = false ->
  str_falsy (strip (ann_screen_id a)) = false ->
  str_falsy (strip (ann_expected_string_id a)) = false ->
  CSVDataLoader.parse_row int strip n (dict_row annotation_header (to_csv_row str_int a))
    = CSVDataLoader.Entry (annotation_key strip a) (ann_coordinate a).
Proof.
  intros Hbox Hprint H1 H2 H3.
  destruct a as [sid scr str [l t r b]]. cbn [ann_step_id ann_screen_id
    ann_expected_string_id ann_coordinate left top right bottom] in *.
  inversion Hprint as [|? ? [Il Sl] Hp1]; subst.
  inversion Hp1 as [|? ? [It St] Hp2]; subst.
  inversion Hp2 as [|? ? [Ir Sr] Hp3]; subst.
  inversion Hp3 as [|? ? [Ib Sb] _]; subst.
  unfold to_csv_row. cbn [ann_step_id ann_screen_id ann_expected_string_id ann_coordinate
    left top right bottom].
  destruct (dict_row_lookup sid scr str (str_int l) (str_int t) (str_int r) (str_int b))
    as (L1 & L2 & L3 & L4 & L5 & L6 & L7).
  unfold CSVDataLoader.parse_row, CSVDataLoader.all_present, CSVDataLoader.required_columns,
    CSVDataLoader.row_get, CSVDataLoader.row_item.
  rewrite L1, L2, L3, L4, L5, L6, L7. cbn [default]. unfold id.
  rewrite H1, H2, H3, Sl, St, Sr, Sb, Il, It, Ir, Ib.
  unfold valid_box in Hbox. cbn [left top right bottom] in Hbox.
  assert (Hb1 : ((l >=? r) || (t >=? b))%bool = false).
  { rewrite !Z.geb_leb. apply orb_false_intro; apply Z.leb_gt; lia. }
  rewrite Hb1.
  assert (Hb2 : existsb (fun coord => coord <? 0) [l; t; r; b] = false).
  { cbn [existsb]. repeat (apply orb_false_intro; [apply Z.ltb_ge; lia|]). reflexivity. }
  rewrite Hb2. reflexivity.
Qed.

End AnnotationRoundTrip.

(** X19: the last saved annotation is what the validator loads.  When
    the coordinate file holds the rows the annotation tool writes for a
    list of annotations, and the last annotation has a valid box, ids
    that are not blank and numbers that [int] reads back from [str],
    the load maps that annotation's (stripped) key to its box. *)
Theorem saved_annotation_loads_back int strip repr_cols read_csv str_int path anns a :
  read_csv path = Some (inr (saved_annotations str_int (anns ++ [a]))) ->
  valid_box (ann_coordinate a) ->
  Forall (prints_back int strip str_int)
    [left (ann_coordinate a); top (ann_coordinate a);
     right (ann_coordinate a); bottom (ann_coordinate a)] ->
  str_falsy (strip (ann_step_id a)) = false ->
  str_falsy (strip (ann_screen_id a)) = false ->
  str_falsy (strip (ann_expected_string_id a)) = false ->
  lookup_loaded
    (fst (CSVDataLoader.load_coordinates int strip repr_cols read_csv path))
    (annotation_key strip a) = Some (ann_coordinate a).
Proof.
  intros Hread Hbox Hprint H1 H2 H3.
  unfold CSVDataLoader.load_coordinates. rewrite Hread.
  change (CSVDataLoader.has_required (saved_annotations str_int (anns ++ [a]))) with true.
  cbn [negb]. unfold saved_annotations. cbn [CSVDataLoader.rows].
  rewrite map_app. cbn [map]. rewrite load_rows_app.
  destruct (CSVDataLoader.load_rows int strip 2
              (map (fun a0 => dict_row annotation_header (to_csv_row str_int a0)) anns) ∅ [])
    as [m evs].
  cbn [fst snd CSVDataLoader.load_rows].
  rewrite (annotation_row_parses int strip str_int _ a Hbox Hprint H1 H2 H3).
  assert (Hne : <[annotation_key strip a := ann_coordinate a]> m <> ∅).
  { intros E. apply (f_equal (fun x => x !! annotation_key strip a)) in E.
    rewrite lookup_insert_eq, lookup_empty in E. discriminate E. }
  rewrite bool_decide_eq_false_2 by exact Hne.
  cbn [fst lookup_loaded]. apply lookup_insert_eq.
Qed.

Lemma saved_annotation_loads_back_witness :
  lookup_loaded
    (fst (CSVDataLoader.load_coordinates Demo.int Demo.strip Demo.repr_cols
            (fun _ => Some (inr (saved_annotations Samples.str_int ([] ++ [Samples.annotation]))))
            "data/string_coordinates.csv"))
    (annotation_key Demo.strip Samples.annotation) = Some Demo.box.
Proof.
  apply (saved_annotation_loads_back Demo.int Demo.strip Demo.repr_cols
           (fun _ => Some (inr (saved_annotations Samples.str_int ([] ++ [Samples.annotation]))))
           Samples.str_int "data/string_coordinates.csv" [] Samples.annotation).
  - reflexivity.
  - unfold valid_box. simpl. lia.
  - repeat constructor; vm_compute; reflexivity.
  - reflexivity.
  - reflexivity.
  - reflexivity.
Defined.

(** * Properties of the string matchers *)

Lemma py_max_upper (a b : Q) : (a <= Matchers.py_max a b)%Q /\ (b <= Matchers.py_max a b)%Q.
Proof.
  unfold Matchers.py_max.
  destruct (Qcompare b a) eqn:Hc.
  - split; [apply Qle_refl|]. apply Qeq_alt in Hc. rewrite Hc. apply Qle_refl.
  - split; [apply Qle_refl|]. apply Qlt_alt in Hc. apply Qlt_le_weak. exact Hc.
  - split; [|apply Qle_refl]. apply Qgt_alt in Hc. apply Qlt_le_weak. exact Hc.
Qed.

Lemma py_max_cases (a b : Q) : Matchers.py_max a b = a \/ Matchers.py_max a b = b.
Proof. unfold Matchers.py_max. destruct (Qcompare b a); auto. Qed.

Lemma py_min_lower (a b : Q) : (py_min a b <= a)%Q /\ (py_min a b <= b)%Q.
Proof.
  unfold py_min.
  destruct (Qcompare b a) eqn:Hc.
  - split; [apply Qle_refl|]. apply Qeq_alt in Hc. rewrite Hc. apply Qle_refl.
  - split; [|apply Qle_refl]. apply Qlt_alt in Hc. apply Qlt_le_weak. exact Hc.
  - split; [apply Qle_refl|]. apply Qgt_alt in Hc. apply Qlt_le_weak. exact Hc.
Qed.

Lemma fold_py_max rest : forall x,
  (fold_left Matchers.py_max rest x = x \/ In (fold_left Matchers.py_max rest x) rest) /\
  (x <= fold_left Matchers.py_max rest x)%Q /\
  (forall y, In y rest -> (y <= fold_left Matchers.py_max rest x)%Q).
Proof.
  induction rest as [|b rest IH]; intros x; cbn [fold_left].
  - split; [left; reflexivity|]. split; [apply Qle_refl|]. intros y [].
  - destruct (IH (Matchers.py_max x b)) as (Hin & Hle & Hall).
    destruct (py_max_upper x b) as [Hx Hb].
    split; [|split].
    + destruct Hin as [Heq|Hin]; [|right; right; exact Hin].
      rewrite Heq. destruct (py_max_cases x b) as [->| ->]; [left|right; left]; reflexivity.
    + eapply Qle_trans; eassumption.
    + intros y [<-|Hy]; [eapply Qle_trans; eassumption | apply Hall; exact Hy].
Qed.

Lemma fold_py_min rest : forall x,
  (fold_left py_min rest x = x \/ In (fold_left py_min rest x) rest) /\
  (fold_left py_min rest x <= x)%Q /\
  (forall y, In y rest -> (fold_left py_min rest x <= y)%Q).
Proof.
  induction rest as [|b rest IH]; intros x; cbn [fold_left].
  - split; [left; reflexivity|]. split; [apply Qle_refl|]. intros y [].
  - destruct (IH (py_min x b)) as (Hin & Hle & Hall).
    destruct (py_min_lower x b) as [Hx Hb].
    split; [|split].
    + destruct Hin as [Heq|Hin]; [|right; right; exact Hin].
      rewrite Heq. destruct (py_min_cases x b) as [->| ->]; [left|right; left]; reflexivity.
    + eapply Qle_trans; eassumption.
    + intros y [<-|Hy]; [eapply Qle_trans; eassumption | apply Hall; exact Hy].
Qed.

Lemma py_max_list_spec xs c :
  Matchers.py_max_list xs = Some c -> In c xs /\ forall y, In y xs -> (y <= c)%Q.
Proof.
  destruct xs as [|x rest]; [discriminate|].
  cbn [Matchers.py_max_list]. intros H; inversion H; subst.
  destruct (fold_py_max rest x) as (Hin & Hle & Hall).
  split.
  - destruct Hin as [->|Hin]; [left; reflexivity | right; exact Hin].
  - intros y [<-|Hy]; [exact Hle | apply Hall; exact Hy].
Qed.

Lemma py_min_list_spec xs c :
  Matchers.py_min_list xs = Some c -> In c xs /\ forall y, In y xs -> (c <= y)%Q.
Proof.
  destruct xs as [|x rest]; [discriminate|].
  cbn [Matchers.py_min_list]. intros H; inversion H; subst.
  destruct (fold_py_min rest x) as (Hin & Hle & Hall).
  split.
  - destruct Hin as [->|Hin]; [left; reflexivity | right; exact Hin].
  - intros y [<-|Hy]; [exact Hle | apply Hall; exact Hy].
Qed.

Lemma collect_results_Forall2 ms expected actual rs :
  Forall2 (fun (m : Matchers.StringMatcher) r => m expected actual = inr r) ms rs ->
  Matchers.collect_results ms expected actual = inr rs.
Proof.
  induction 1 as [|m r ms rs Hm _ IH]; [reflexivity|].
  cbn [Matchers.collect_results]. rewrite Hm, IH. reflexivity.
Qed.

Lemma collect_results_inr ms expected actual : forall rs,
  Matchers.collect_results ms expected actual = inr rs ->
  Forall2 (fun (m : Matchers.StringMatcher) r => m expected actual = inr r) ms rs.
Proof.
  induction ms as [|m ms IH]; intros rs; cbn [Matchers.collect_results].
  - intros H; inversion H. constructor.
  - destruct (m expected actual) as [e|r] eqn:Hm; [discriminate|].
    destruct (Matchers.collect_results ms expected actual) as [e|rs']; [discriminate|].
    intros H; inversion H; subst. constructor; [exact Hm | apply IH; reflexivity].
Qed.

(** What [combine] gives in the any-matcher mode. *)
Lemma combine_any rs :
  exists c,
    Matchers.combine false rs = inr (existsb fst rs, c) /\
    (existsb fst rs = false -> c = 0%Q) /\
    (existsb fst rs = true ->
       (exists r, In r rs /\ fst r = true /\ snd r = c) /\
       (forall r, In r rs -> fst r = true -> (snd r <= c)%Q)).
Proof.
  unfold Matchers.combine.
  destruct (Matchers.py_max_list (map snd (List.filter fst rs))) as [c|] eqn:Hmax.
  - exists c. split; [reflexivity|].
    destruct (py_max_list_spec _ _ Hmax) as [Hin Hall].
    apply in_map_iff in Hin. destruct Hin as (r & Hr & Hin).
    apply filter_In in Hin. destruct Hin as [Hin Hf].
    split.
    + intros Hnone. assert (Hex : existsb fst rs = true)
        by (apply existsb_exists; exists r; split; assumption). congruence.
    + intros _. split; [exists r; repeat split; assumption|].
      intros r' Hin' Hf'. apply Hall. apply in_map. apply filter_In. split; assumption.
  - exists 0%Q. split; [reflexivity|]. split; [reflexivity|].
    intros Hex. apply existsb_exists in Hex. destruct Hex as (r & Hin & Hf).
    assert (Hin' : In (snd r) (map snd (List.filter fst rs)))
      by (apply in_map; apply filter_In; split; assumption).
    destruct (map snd (List.filter fst rs)); [destruct Hin' | discriminate Hmax].
Qed.

(** What [combine] gives in the all-matchers mode, for at least one result. *)
Lemma combine_all rs :
  rs <> [] ->
  exists c,
    Matchers.combine true rs = inr (forallb fst rs, c) /\
    (forallb fst rs = false -> c = 0%Q) /\
    (forallb fst rs = true ->
       (exists r, In r rs /\ snd r = c) /\
       (forall r, In r rs -> (c <= snd r)%Q)).
Proof.
  intros Hne. unfold Matchers.combine.
  destruct (forallb fst rs) eqn:Hall.
  - destruct rs as [|r0 rs]; [congruence|].
    destruct (Matchers.py_min_list (map snd (r0 :: rs))) as [c|] eqn:Hmin;
      [|discriminate Hmin].
    exists c. split; [reflexivity|]. split; [discriminate|]. intros _.
    destruct (py_min_list_spec _ _ Hmin) as [Hin Hle].
    apply in_map_iff in Hin. destruct Hin as (r & Hr & Hin).
    split; [exists r; split; assumption|].
    intros r' Hin'. apply Hle. apply in_map. exact Hin'.
  - exists 0%Q. split; [reflexivity|]. split; [reflexivity | discriminate].
Qed.

(** X20: the any-matcher composite.  When every child returns, a
    composite built with [require_all=False] matches exactly when some
    child matched; its confidence is 0 when none matched, and otherwise
    the confidence of a matching child that no matching child exceeds
    (the confidences of non-matching children play no part). *)
Theorem composite_any_takes_best_passing ms expected actual rs :
  Forall2 (fun (m : Matchers.StringMatcher) r => m expected actual = inr r) ms rs ->
  exists c,
    Matchers.composite_match ms false expected actual = inr (existsb fst rs, c) /\
    (existsb fst rs = false -> c = 0%Q) /\
    (existsb fst rs = true ->
       (exists r, In r rs /\ fst r = true /\ snd r = c) /\
       (forall r, In r rs -> fst r = true -> (snd r <= c)%Q)).
Proof.
  intros Hall.
  destruct (combine_any rs) as (c & Hc & Hrest).
  exists c. split; [|exact Hrest].
  unfold Matchers.composite_match.
  rewrite (collect_results_Forall2 ms expected actual rs Hall), Hc. reflexivity.
Qed.

Lemma composite_any_takes_best_passing_witness :
  exists c,
    Matchers.composite_match [Samples.never; Samples.weak; Samples.strong] false "a" "b"
      = inr (existsb fst [(false, 7 # 10); (true, 6 # 10); (true, 9 # 10)], c) /\
    (existsb fst [(false, 7 # 10); (true, 6 # 10); (true, 9 # 10)] = false -> c = 0%Q) /\
    (existsb fst [(false, 7 # 10); (true, 6 # 10); (true, 9 # 10)] = true ->
       (exists r, In r [(false, 7 # 10); (true, 6 # 10); (true, 9 # 10)]
                  /\ fst r = true /\ snd r = c) /\
       (forall r, In r [(false, 7 # 10); (true, 6 # 10); (true, 9 # 10)] ->
                  fst r = true -> (snd r <= c)%Q)).
Proof.
  apply (composite_any_takes_best_passing [Samples.never; Samples.weak; Samples.strong]
           "a" "b" [(false, 7 # 10); (true, 6 # 10); (true, 9 # 10)]).
  repeat constructor.
Defined.

(** X21: the all-matchers composite.  When every child of a non-empty
    composite built with [require_all=True] returns, it matches exactly
    when all children matched; its confidence is then the smallest child
    confidence, and 0 otherwise. *)
Theorem composite_all_takes_weakest ms expected actual rs :
  ms <> [] ->
  Forall2 (fun (m : Matchers.StringMatcher) r => m expected actual = inr r) ms rs ->
  exists c,
    Matchers.composite_match ms true expected actual = inr (forallb fst rs, c) /\
    (forallb fst rs = false -> c = 0%Q) /\
    (forallb fst rs = true ->
       (exists r, In r rs /\ snd r = c) /\
       (forall r, In r rs -> (c <= snd r)%Q)).
Proof.
  intros Hne Hall.
  assert (Hrs : rs <> []) by (destruct Hall; [congruence | discriminate]).
  destruct (combine_all rs Hrs) as (c & Hc & Hrest).
  exists c. split; [|exact Hrest].
  unfold Matchers.composite_match.
  rewrite (collect_results_Forall2 ms expected actual rs Hall), Hc. reflexivity.
Qed.

Lemma composite_all_takes_weakest_witness :
  exists c,
    Matchers.composite_match [Samples.weak; Samples.strong] true "a" "b"
      = inr (forallb fst [(true, 6 # 10); (true, 9 # 10)], c) /\
    (forallb fst [(true, 6 # 10); (true, 9 # 10)] = false -> c = 0%Q) /\
    (forallb fst [(true, 6 # 10); (true, 9 # 10)] = true ->
       (exists r, In r [(true, 6 # 10); (true, 9 # 10)] /\ snd r = c) /\
       (forall r, In r [(true, 6 # 10); (true, 9 # 10)] -> (c <= snd r)%Q)).
Proof.
  apply (composite_all_takes_weakest [Samples.weak; Samples.strong] "a" "b"
           [(true, 6 # 10); (true, 9 # 10)]); [discriminate | repeat constructor].
Defined.

(** X22: a raising child.  When the children before some child return
    and that child raises [e], the composite raises a [MatchingError]
    that quotes the message of [e], in either mode. *)
Theorem composite_wraps_child_error pre m post require_all expected actual e :
  Forall (fun m' : Matchers.StringMatcher => exists r, m' expected actual = inr r) pre ->
  m expected actual = inl e ->
  Matchers.composite_match (pre ++ m :: post) require_all expected actual =
    inl (Exc MatchingError ("Composite matching failed: " +:+ exc_str e)).
Proof.
  intros Hpre Hm.
  assert (Hc : Matchers.collect_results (pre ++ m :: post) expected actual = inl e).
  { induction Hpre as [|m' pre (r & Hr) _ IH]; cbn [app Matchers.collect_results].
    - rewrite Hm. reflexivity.
    - rewrite Hr, IH. reflexivity. }
  unfold Matchers.composite_match. rewrite Hc. reflexivity.
Qed.

Lemma composite_wraps_child_error_witness :
  Matchers.composite_match ([Samples.weak] ++ Samples.failing :: [Samples.strong]) false
    "a" "b" = inl (Exc MatchingError ("Composite matching failed: " +:+ "matcher crashed")).
Proof.
  apply (composite_wraps_child_error [Samples.weak] Samples.failing [Samples.strong] false
           "a" "b" (Exc Exception_ "matcher crashed")).
  - repeat constructor. eexists. reflexivity.
  - reflexivity.
Defined.

(** X23: the composite keeps confidences in the unit interval.  If
    every child only returns confidences in [0, 1], so does the
    composite, in either mode. *)
Theorem composite_confidence_in_unit_interval ms require_all expected actual b c :
  (forall (m : Matchers.StringMatcher) r, In m ms -> m expected actual = inr r ->
     in_unit (snd r)) ->
  Matchers.composite_match ms require_all expected actual = inr (b, c) ->
  in_unit c.
Proof.
  intros Hunit Hrun.
  unfold Matchers.composite_match in Hrun.
  destruct (Matchers.collect_results ms expected actual) as [e|rs] eqn:Hcol;
    [discriminate|].
  apply collect_results_inr in Hcol.
  assert (Hrs : forall r, In r rs -> in_unit (snd r)).
  { intros r Hr. apply list_elem_of_In in Hr.
    destruct (list_elem_of_lookup_1 _ _ Hr) as [i Hi].
    destruct (Forall2_lookup_r _ _ _ _ _ Hcol Hi) as (m & Hm & Hres).
    apply (Hunit m r); [|exact Hres].
    apply list_elem_of_In. eapply list_elem_of_lookup_2. exact Hm. }
  assert (Hzero : in_unit 0%Q) by (split; discriminate).
  destruct require_all.
  - destruct rs as [|r0 rs].
    + cbn in Hrun. discriminate Hrun.
    + destruct (combine_all (r0 :: rs)) as (c' & Hc & Hfalse & Htrue); [discriminate|].
      rewrite Hc in Hrun. inversion Hrun; subst.
      destruct (forallb fst (r0 :: rs)) eqn:Hb.
      * destruct (Htrue eq_refl) as [(r & Hin & <-) _]. apply Hrs. exact Hin.
      * rewrite (Hfalse eq_refl). exact Hzero.
  - destruct (combine_any rs) as (c' & Hc & Hfalse & Htrue).
    rewrite Hc in Hrun. inversion Hrun; subst.
    destruct (existsb fst rs) eqn:Hb.
    + destruct (Htrue eq_refl) as [(r & Hin & _ & <-) _]. apply Hrs. exact Hin.
    + rewrite (Hfalse eq_refl). exact Hzero.
Qed.

Lemma composite_confidence_in_unit_interval_witness : in_unit (9 # 10).
Proof.
  apply (composite_confidence_in_unit_interval [Samples.weak; Samples.strong] false
           "a" "b" true (9 # 10)).
  - intros m r [<-|[<-|[]]] H; inversion H; unfold in_unit, Qle; simpl; lia.
  - reflexivity.
Defined.

Lemma py_max_absorbs (a b : Q) : (b <= a)%Q -> Matchers.py_max a b = a.
Proof.
  intros Hle. unfold Matchers.py_max.
  destruct (Qcompare b a) eqn:Hc; try reflexivity.
  apply Qgt_alt in Hc. exfalso. exact (Qlt_not_le _ _ Hc Hle).
Qed.

Section DefaultMatcher.

Variable strip : string -> string.
Variable lower : string -> string.
Variable ratio : string -> string -> Q.
Variable collapse_ws : string -> string.
Variable drop_punct : string -> string.

Local Abbreviation create_default_matcher :=
  (Matchers.create_default_matcher strip lower ratio collapse_ws drop_punct).

Lemma default_matcher_built thr :
  Matchers.threshold_ok thr = true ->
  create_default_matcher thr =
    inr (Matchers.composite_match
           [Matchers.ExactMatcher strip lower false;
            Matchers.normalized_match strip lower ratio collapse_ws drop_punct
              (9 # 10) true true false;
            Matchers.fuzzy_match strip lower ratio thr false] false).
Proof.
  intros Hthr.
  unfold Matchers.create_default_matcher, Matchers.NormalizedMatcher, Matchers.FuzzyMatcher.
  change (Matchers.threshold_ok (9 # 10)) with true. cbv iota.
  rewrite Hthr. reflexivity.
Qed.

End DefaultMatcher.

(** X24: an exact match always passes the default matcher.  With a
    fuzzy threshold in [0, 1] and a similarity ratio that never exceeds
    1, the default matcher reports a match with confidence exactly 1
    whenever the two strings are equal after trimming and lower-casing,
    whatever the threshold and the ratios are. *)
Theorem default_matcher_accepts_exact_match
    strip lower ratio collapse_ws drop_punct thr expected actual :
  Matchers.threshold_ok thr = true ->
  (forall x y, (ratio x y <= 1)%Q) ->
  Matchers.clean strip lower false expected = Matchers.clean strip lower false actual ->
  exists m,
    Matchers.create_default_matcher strip lower ratio collapse_ws drop_punct thr = inr m /\
    m expected actual = inr (true, 1%Q).
Proof.
  intros Hthr Hratio Heq.
  eexists. split; [apply default_matcher_built; exact Hthr|].
  unfold Matchers.composite_match, Matchers.collect_results, Matchers.ExactMatcher,
    Matchers.normalized_match, Matchers.fuzzy_match.
  rewrite Heq, String.eqb_refl.
  unfold Matchers.combine. cbn [existsb fst List.filter map snd].
  repeat match goal with
         | |- context [Qle_bool ?a ?b] => destruct (Qle_bool a b)
         end;
    cbn [existsb fst List.filter map snd orb Matchers.py_max_list fold_left];
    repeat (rewrite (py_max_absorbs 1) by apply Hratio); reflexivity.
Qed.

Lemma default_matcher_accepts_exact_match_witness :
  exists m,
    Matchers.create_default_matcher Demo.strip Samples.lower Samples.ratio
      (fun s => s) (fun s => s) (8 # 10) = inr m /\
    m "Hello" " hello " = inr (true, 1%Q).
Proof.
  apply (default_matcher_accepts_exact_match Demo.strip Samples.lower Samples.ratio
           (fun s => s) (fun s => s) (8 # 10) "Hello" " hello ").
  - reflexivity.
  - intros x y. unfold Samples.ratio. destruct (String.eqb x y); unfold Qle; simpl; lia.
  - reflexivity.
Defined.

(** X25: the default matcher and the fuzzy threshold.  Building the
    default matcher succeeds exactly for a fuzzy threshold in [0, 1];
    for any other threshold it raises the [ValueError] of the
    [FuzzyMatcher] constructor. *)
Theorem default_matcher_needs_unit_threshold strip lower ratio collapse_ws drop_punct thr :
  (in_unit thr /\
   exists m, Matchers.create_default_matcher strip lower ratio collapse_ws drop_punct thr
             = inr m) \/
  (~ in_unit thr /\
   Matchers.create_default_matcher strip lower ratio collapse_ws drop_punct thr
     = inl (Exc ValueError "Threshold must be between 0.0 and 1.0")).
Proof.
  destruct (Matchers.threshold_ok thr) eqn:Hthr.
  - left. split.
    + unfold Matchers.threshold_ok in Hthr. apply andb_prop in Hthr.
      destruct Hthr as [H0 H1]. split; apply Qle_bool_iff; assumption.
    + eexists. apply default_matcher_built. exact Hthr.
  - right. split.
    + intros [H0 H1]. unfold Matchers.threshold_ok in Hthr.
      apply Qle_bool_iff in H0, H1. rewrite H0, H1 in Hthr. discriminate Hthr.
    + unfold Matchers.create_default_matcher, Matchers.NormalizedMatcher,
        Matchers.FuzzyMatcher.
      change (Matchers.threshold_ok (9 # 10)) with true. cbv iota.
      rewrite Hthr. reflexivity.
Qed.

(** X26: the contains matcher.  Its confidence always lies in [0, 1];
    an expected text that is empty after cleaning matches every actual
    text, with confidence 0; and a match on a non-empty expected text
    has a positive confidence. *)
Theorem contains_matcher_confidence strip lower case_sensitive expected actual :
  exists m c,
    Matchers.ContainsMatcher strip lower case_sensitive expected actual = inr (m, c) /\
    in_unit c /\
    (Matchers.clean strip lower case_sensitive expected = EmptyString ->
       m = true /\ c = 0%Q) /\
    (m = true -> Matchers.clean strip lower case_sensitive expected <> EmptyString ->
       (0 < c)%Q).
Proof.
  unfold Matchers.ContainsMatcher.
  set (e := Matchers.clean strip lower case_sensitive expected).
  set (a := Matchers.clean strip lower case_sensitive actual).
  eexists. eexists. split; [reflexivity|].
  assert (Hlen : forall s, s <> EmptyString -> (0 < Matchers.str_len s)%Q).
  { intros s Hs. unfold Matchers.str_len. rewrite <- (Zlt_Qlt 0).
    destruct s; [congruence | simpl; lia]. }
  assert (Hsub : forall s, s <> EmptyString -> Matchers.is_substring s EmptyString = false).
  { intros s Hs. destruct s; [congruence | reflexivity]. }
  assert (Hzero : in_unit 0%Q) by (split; discriminate).
  split; [|split].
  - destruct (Matchers.is_substring e a && negb (str_falsy e))%bool; [|exact Hzero].
    destruct (str_falsy a) eqn:Ha.
    + destruct (py_min_cases 0 1) as [->| ->]; [exact Hzero | split; discriminate].
    + assert (Hq : (0 <= Matchers.str_len e / Matchers.str_len a)%Q).
      { apply Qle_shift_div_l.
        - apply Hlen. destruct a; [discriminate Ha | discriminate].
        - rewrite Qmult_0_l. unfold Matchers.str_len. rewrite <- (Zle_Qle 0). lia. }
      split.
      * destruct (py_min_cases (Matchers.str_len e / Matchers.str_len a) 1) as [->| ->];
          [exact Hq | discriminate].
      * apply (proj2 (py_min_lower _ _)).
  - intros He. rewrite He. split; [destruct a; reflexivity|].
    rewrite andb_false_r. reflexivity.
  - intros Hm Hne. rewrite Hm.
    assert (Hf : str_falsy e = false) by (destruct e; [congruence | reflexivity]).
    rewrite Hf. cbn [negb andb].
    assert (Ha : a <> EmptyString).
    { intros E. rewrite E, (Hsub e Hne) in Hm. discriminate Hm. }
    assert (Hfa : str_falsy a = false) by (destruct a; [congruence | reflexivity]).
    rewrite Hfa.
    assert (Hq : (0 < Matchers.str_len e / Matchers.str_len a)%Q).
    { apply Qlt_shift_div_l; [apply Hlen; exact Ha|].
      rewrite Qmult_0_l. apply Hlen. exact Hne. }
    destruct (py_min_cases (Matchers.str_len e / Matchers.str_len a) 1) as [->| ->];
      [exact Hq | reflexivity].
Qed.

(** * The reporters' summary *)

(** X27: the reporters' summary against the engine's.  On every list of
    results the summary computed by the report generators agrees with
    [get_validation_summary] on the total, the passes, the fails, the
    pass rate and both averages, while its [errors] field counts the
    ERROR, MISSING_IMAGE and MISSING_COORDINATES results together, so
    that passed + failed + errors is the total. *)
Theorem report_summary_agrees_with_engine rs :
  let e := get_validation_summary rs in
  let r := Reporters._calculate_summary_stats rs in
  Reporters.r_total_steps r = total_steps e /\
  Reporters.r_passed r = passed e /\
  Reporters.r_failed r = failed e /\
  Reporters.r_errors r = (errors e + missing_images e + missing_coordinates e)%nat /\
  Reporters.r_pass_rate r = pass_rate e /\
  Reporters.r_average_confidence r = average_confidence e /\
  Reporters.r_average_processing_time_ms r = average_processing_time_ms e /\
  (Reporters.r_passed r + Reporters.r_failed r + Reporters.r_errors r
   = Reporters.r_total_steps r)%nat.
Proof.
  destruct rs as [|x rs]; [repeat split|].
  set (l := x :: rs).
  pose proof (count_results_partition l) as Hpart.
  assert (Hr : Reporters._calculate_summary_stats l =
               Reporters.mkReportSummary (length l) (count_result PASS l)
                 (count_result FAIL l)
                 (count_result ERROR l + count_result MISSING_IMAGE l
                  + count_result MISSING_COORDINATES l)
                 (pass_rate (get_validation_summary l))
                 (average_confidence (get_validation_summary l))
                 (average_processing_time_ms (get_validation_summary l))
                 (map (fun rt => (Reporters.value rt, count_result rt l)) Reporters.members)).
  { unfold Reporters._calculate_summary_stats, get_validation_summary. subst l.
    cbn [pass_rate average_confidence average_processing_time_ms].
    f_equal. }
  cbv zeta. rewrite Hr.
  unfold get_validation_summary. subst l.
  cbn [Reporters.r_total_steps Reporters.r_passed Reporters.r_failed Reporters.r_errors
       Reporters.r_pass_rate Reporters.r_average_confidence
       Reporters.r_average_processing_time_ms total_steps passed failed errors
       missing_images missing_coordinates pass_rate average_confidence
       average_processing_time_ms].
  repeat split. lia.
Qed.
